(** * MedRec: medication.py

    A shallow embedding of [src/medication.py] (the classes [Medication] and
    [ParsedMedication]).  Python 2 byte strings are Rocq [string]s (one
    [ascii] per byte); most string primitives are written on [list ascii]
    and wrapped.  The configuration module [constants.py] is not part of the
    sources: its tables are the variables of the section [Code].  The
    [dose] and [units] setters also accept [unicode] objects, which the dose
    composition treats differently: for these two attributes the record
    keeps the Python type of the value (a unicode value's code points, below
    256, are the bytes of its Rocq string). *)

From Stdlib Require Import Ascii String ZArith List.
From stdpp Require Import base gmap strings list.
Import ListNotations.

Local Open Scope Z_scope.

(* ------------------------------------------------------------------ *)
(** ** Python string primitives *)

Module Py.

Definition chars_of (s : string) : list ascii := list_ascii_of_string s.
Definition str_of (l : list ascii) : string := string_of_list_ascii l.

(** [str.isspace] for one byte (Python 2, no locale): space, \t \n \v \f \r. *)
Definition is_space (c : ascii) : bool :=
  match nat_of_ascii c with
  | 32 | 9 | 10 | 11 | 12 | 13 => true
  | _ => false
  end%nat.

Definition is_newline (c : ascii) : bool := (nat_of_ascii c =? 10)%nat.

Definition is_digit (c : ascii) : bool :=
  let n := nat_of_ascii c in (48 <=? n)%nat && (n <=? 57)%nat.

Definition upper_char (c : ascii) : ascii :=
  let n := nat_of_ascii c in
  if (97 <=? n)%nat && (n <=? 122)%nat then ascii_of_nat (n - 32) else c.

Definition lower_char (c : ascii) : ascii :=
  let n := nat_of_ascii c in
  if (65 <=? n)%nat && (n <=? 90)%nat then ascii_of_nat (n + 32) else c.

Definition ascii_eqb (a b : ascii) : bool := if ascii_dec a b then true else false.

(** The characters the ASCII codec (Python 2's default encoding) accepts. *)
Definition is_ascii_char (c : ascii) : bool := (nat_of_ascii c <? 128)%nat.
Definition is_ascii (s : string) : bool := forallb is_ascii_char (chars_of s).

(** [s.upper()] and [s.lower()] *)
Definition upper (s : string) : string := str_of (map upper_char (chars_of s)).
Definition lower (s : string) : string := str_of (map lower_char (chars_of s)).

Fixpoint lstrip_by (p : ascii -> bool) (l : list ascii) : list ascii :=
  match l with
  | c :: l' => if p c then lstrip_by p l' else l
  | [] => []
  end.

Definition rstrip_by (p : ascii -> bool) (l : list ascii) : list ascii :=
  rev (lstrip_by p (rev l)).

Definition strip_by (p : ascii -> bool) (l : list ascii) : list ascii :=
  rstrip_by p (lstrip_by p l).

(** [s.strip()] *)
Definition strip (s : string) : string := str_of (strip_by is_space (chars_of s)).

(** [s.strip(chars)]: removes every leading and trailing byte occurring in
    [chars]. *)
Definition strip_chars (chars s : string) : string :=
  str_of (strip_by (fun c => existsb (ascii_eqb c) (chars_of chars)) (chars_of s)).

(** [s.split()]: split on runs of whitespace, no empty pieces. *)
Fixpoint split_ws_aux (l cur : list ascii) : list (list ascii) :=
  match l with
  | [] => match cur with [] => [] | _ => [rev cur] end
  | c :: l' =>
      if is_space c then
        match cur with
        | [] => split_ws_aux l' []
        | _ => rev cur :: split_ws_aux l' []
        end
      else split_ws_aux l' (c :: cur)
  end.

Definition split (s : string) : list string :=
  map str_of (split_ws_aux (chars_of s) []).

(** [s.split(sep)] for a one-byte separator: keeps empty pieces. *)
Fixpoint split_on_aux (sep : ascii) (l cur : list ascii) : list (list ascii) :=
  match l with
  | [] => [rev cur]
  | c :: l' =>
      if ascii_eqb c sep then rev cur :: split_on_aux sep l' []
      else split_on_aux sep l' (c :: cur)
  end.

Definition split_on (sep : ascii) (s : string) : list string :=
  map str_of (split_on_aux sep (chars_of s) []).

(** [sep.join(parts)] *)
Fixpoint join (sep : string) (parts : list string) : string :=
  match parts with
  | [] => ""
  | [p] => p
  | p :: ps => p +:+ sep +:+ join sep ps
  end.

Fixpoint prefixb (p s : list ascii) : bool :=
  match p, s with
  | [], _ => true
  | a :: p', b :: s' => ascii_eqb a b && prefixb p' s'
  | _ :: _, [] => false
  end.

Fixpoint contains_l (p s : list ascii) : bool :=
  prefixb p s || match s with [] => false | _ :: s' => contains_l p s' end.

(** [sub in s] on strings *)
Definition contains (sub s : string) : bool := contains_l (chars_of sub) (chars_of s).

(** [s.replace(old, new)]: every non-overlapping occurrence, left to right. *)
Fixpoint replace_fuel (fuel : nat) (old new s : list ascii) : list ascii :=
  match fuel with
  | O => s
  | S f =>
      match s with
      | [] => []
      | c :: s' =>
          if prefixb old s then new ++ replace_fuel f old new (drop (length old) s)
          else c :: replace_fuel f old new s'
      end
  end.

Definition replace (s old new : string) : string :=
  let o := chars_of old in let n := chars_of new in let l := chars_of s in
  match o with
  | [] => str_of (n ++ concat (map (fun c => c :: n) l))
  | _ => str_of (replace_fuel (length l) o n l)
  end.

(** [int(s)] for a string, base 10: [None] is the [ValueError]. *)
Fixpoint digits_value (l : list ascii) (acc : Z) : option Z :=
  match l with
  | [] => Some acc
  | c :: l' =>
      if is_digit c then digits_value l' (10 * acc + Z.of_nat (nat_of_ascii c - 48))
      else None
  end.

Definition digits (l : list ascii) : option Z :=
  match l with [] => None | _ => digits_value l 0 end.

Definition int (s : string) : option Z :=
  match strip_by is_space (chars_of s) with
  | c :: ds =>
      if ascii_eqb c "-"%char then option_map Z.opp (digits ds)
      else if ascii_eqb c "+"%char then digits ds
      else digits (c :: ds)
  | [] => None
  end.

(** ['%d' % n] *)
Fixpoint dec_digits (fuel : nat) (n : N) (acc : list ascii) : list ascii :=
  match fuel with
  | O => acc
  | S f =>
      let acc' := ascii_of_N (48 + N.modulo n 10) :: acc in
      if (n <? 10)%N then acc' else dec_digits f (N.div n 10) acc'
  end.

Definition fmt_d (z : Z) : string :=
  match z with
  | Zneg p => "-" +:+ str_of (dec_digits (Pos.size_nat p) (Npos p) [])
  | _ => str_of (dec_digits (S (N.size_nat (Z.to_N z))) (Z.to_N z) [])
  end.

(** ['%s' % x] and [str(x)] for a value that is a string or [None]. *)
Definition fmt_s (x : option string) : string :=
  match x with Some s => s | None => "None" end.

End Py.

(* ------------------------------------------------------------------ *)
(** ** The line grammar [medication_parser]

    The pattern, written piece by piece: start of string, [\s*], the group
    [name] as [.*?], [\s+], the group [dose] as [[0-9\.\/]+], [\s+], the
    group [units] as [m?c?k?g|m?d?l], [\s*], the group [formulation] as
    [.*?], a literal [;], [\s*?] and the group [instructions] as [.*]; with IGNORECASE and
    VERBOSE (the layout whitespace of the pattern is ignored).  Each piece
    lists its ways of matching in the order the backtracking engine tries
    them, so the first element of the whole list is the match [re] finds. *)

Module Grammar.
Import Py.

Fixpoint span_greedy (p : ascii -> bool) (l : list ascii) : list (list ascii * list ascii) :=
  match l with
  | c :: l' =>
      if p c then map (fun '(a, b) => (c :: a, b)) (span_greedy p l') ++ [([], l)]
      else [([], l)]
  | [] => [([], [])]
  end.

(** [x*?] *)
Definition span_lazy (p : ascii -> bool) (l : list ascii) := rev (span_greedy p l).

(** [x+] *)
Definition span_greedy1 (p : ascii -> bool) (l : list ascii) : list (list ascii * list ascii) :=
  match l with
  | c :: l' => if p c then map (fun '(a, b) => (c :: a, b)) (span_greedy p l') else []
  | [] => []
  end.

(** [.] does not match a newline *)
Definition any_char (c : ascii) : bool := negb (is_newline c).

Definition dose_char (c : ascii) : bool :=
  is_digit c || ascii_eqb c "."%char || ascii_eqb c "/"%char.

(** [m?c?k?g|m?d?l]: the words each branch can match, in the engine's order
    (an optional letter is first tried present). *)
Definition unit_words : list string :=
  ["mckg"; "mcg"; "mkg"; "mg"; "ckg"; "cg"; "kg"; "g"; "mdl"; "ml"; "dl"; "l"].

Fixpoint prefix_ci (p s : list ascii) : option (list ascii * list ascii) :=
  match p, s with
  | [], _ => Some ([], s)
  | a :: p', b :: s' =>
      if ascii_eqb (lower_char a) (lower_char b) then
        option_map (fun '(m, r) => (b :: m, r)) (prefix_ci p' s')
      else None
  | _ :: _, [] => None
  end.

Definition units_matches (l : list ascii) : list (list ascii * list ascii) :=
  flat_map (fun w => match prefix_ci (chars_of w) l with Some mr => [mr] | None => [] end)
    unit_words.

Definition groups := (string * string * string * string * string)%type.

Definition parser_matches (l : list ascii) : list groups :=
  flat_map (fun '(_, s1) =>                                   (* ^\s*      *)
  flat_map (fun '(name, s2) =>                                (* .*?       *)
  flat_map (fun '(_, s3) =>                                   (* \s+       *)
  flat_map (fun '(dose, s4) =>                                (* [0-9./]+  *)
  flat_map (fun '(_, s5) =>                                   (* \s+       *)
  flat_map (fun '(units, s6) =>                               (* units     *)
  flat_map (fun '(_, s7) =>                                   (* \s*       *)
  flat_map (fun '(form, s8) =>                                (* .*?       *)
    match s8 with
    | c :: s9 =>
        if ascii_eqb c ";"%char then                          (* ;         *)
          flat_map (fun '(_, s10) =>                          (* \s*?      *)
          flat_map (fun '(instr, _) =>                        (* .*        *)
            [(str_of name, str_of dose, str_of units, str_of form, str_of instr)])
            (span_greedy any_char s10))
            (span_lazy is_space s9)
        else []
    | [] => []
    end)
    (span_lazy any_char s7))
    (span_greedy is_space s6))
    (units_matches s5))
    (span_greedy1 is_space s4))
    (span_greedy1 dose_char s3))
    (span_greedy1 is_space s2))
    (span_lazy any_char s1))
    (span_greedy is_space l).

(** [medication_parser.findall(s)]: [^] without MULTILINE only matches at
    position 0, so there is at most one match, the first one tried. *)
Definition medication_parser_findall (s : string) : list groups :=
  match parser_matches (chars_of s) with
  | [] => []
  | m :: _ => [m]
  end.

End Grammar.

(* ------------------------------------------------------------------ *)
(** ** Data model *)

(** An edge of [mappings.rxnorm.relations]: [x.relation], [x._concept1.CUI],
    [x._concept2.CUI]. *)
Record Relation := mkRelation {
  relation : string;
  concept1_CUI : string;
  concept2_CUI : string
}.

(** A MappingContext.  [concept_names] maps a lowercase drug name to the
    Python set of CUIs it names, given by its location in the heap (sets are
    mutable and copied by [copy.copy]); [formulas] is [rxnorm.formulas],
    a CUI to the [.name]s of its ingredients. *)
Record MappingContext := mkContext {
  concept_names : gmap string nat;
  formulas : gmap string (list string);
  relations : list Relation
}.

(** The instance attributes of a [ParsedMedication]; [None] is Python's
    [None]. [_cuis] is the location of the cached set of CUIs. *)
Record ParsedMedication := mkPM {
  _original_string : option string;
  _normalized_string : option string;
  _provenance : string;
  _seq_id : Z;
  _name : option string;
  _dose : option string;
  _units : option string;
  _formulation : option string;
  _instructions : option string;
  _parsed : bool;
  _generic_formula : option (list string);
  _norm_dose : option string;
  _cuis : option nat;
  _context : option MappingContext;
  (** [type(self._dose) is unicode] and [type(self._units) is unicode] *)
  dose_is_unicode : bool;
  units_is_unicode : bool
}.

Definition set_text (m : ParsedMedication) (orig norm : option string) : ParsedMedication :=
  mkPM orig norm (_provenance m) (_seq_id m) (_name m) (_dose m) (_units m)
    (_formulation m) (_instructions m) (_parsed m) (_generic_formula m) (_norm_dose m)
    (_cuis m) (_context m) (dose_is_unicode m) (units_is_unicode m).

Definition set_fields (m : ParsedMedication) (n d u f i : option string) (p : bool) : ParsedMedication :=
  mkPM (_original_string m) (_normalized_string m) (_provenance m) (_seq_id m) n d u f i p
    (_generic_formula m) (_norm_dose m) (_cuis m) (_context m) (dose_is_unicode m)
    (units_is_unicode m).

Definition set_generic_formula (m : ParsedMedication) (g : option (list string)) : ParsedMedication :=
  mkPM (_original_string m) (_normalized_string m) (_provenance m) (_seq_id m) (_name m)
    (_dose m) (_units m) (_formulation m) (_instructions m) (_parsed m) g (_norm_dose m)
    (_cuis m) (_context m) (dose_is_unicode m) (units_is_unicode m).

Definition set_norm_dose (m : ParsedMedication) (v : option string) : ParsedMedication :=
  mkPM (_original_string m) (_normalized_string m) (_provenance m) (_seq_id m) (_name m)
    (_dose m) (_units m) (_formulation m) (_instructions m) (_parsed m) (_generic_formula m) v
    (_cuis m) (_context m) (dose_is_unicode m) (units_is_unicode m).

Definition set_cuis (m : ParsedMedication) (c : option nat) : ParsedMedication :=
  mkPM (_original_string m) (_normalized_string m) (_provenance m) (_seq_id m) (_name m)
    (_dose m) (_units m) (_formulation m) (_instructions m) (_parsed m) (_generic_formula m)
    (_norm_dose m) c (_context m) (dose_is_unicode m) (units_is_unicode m).

Definition set_context (m : ParsedMedication) (c : option MappingContext) : ParsedMedication :=
  mkPM (_original_string m) (_normalized_string m) (_provenance m) (_seq_id m) (_name m)
    (_dose m) (_units m) (_formulation m) (_instructions m) (_parsed m) (_generic_formula m)
    (_norm_dose m) (_cuis m) c (dose_is_unicode m) (units_is_unicode m).

(** The Python types of the values of [_dose] and [_units]. *)
Definition set_unicode (m : ParsedMedication) (du uu : bool) : ParsedMedication :=
  mkPM (_original_string m) (_normalized_string m) (_provenance m) (_seq_id m) (_name m)
    (_dose m) (_units m) (_formulation m) (_instructions m) (_parsed m) (_generic_formula m)
    (_norm_dose m) (_cuis m) (_context m) du uu.

(** The state a method runs in: the heap of Python sets, the two class-level
    caches [ParsedMedication.formulation_regexp_cache] and
    [ParsedMedication.times_regexp_cache] (keyed by the form, which may be
    [None]), and the receiver [self]. *)
Record World := mkWorld {
  heap : gmap nat (list string);
  next_loc : nat;
  formulation_regexp_cache : gmap (option string) (list (string * Z));
  times_regexp_cache : gmap (option string) (list (string * Z));
  self : ParsedMedication
}.

(** The exceptions the methods can raise. *)
Inductive exc :=
  | AttributeError | TypeError | ValueError | KeyError | UnboundLocalError
  | MappingContextError.

(** A method call: state passing with exceptions; the state reached when an
    exception is raised is kept, as in Python. *)
Definition PyM (A : Type) : Type := World -> World * (exc + A).

Global Instance PyM_ret : MRet PyM := fun A a w => (w, inr a).
Global Instance PyM_bind : MBind PyM := fun A B k m w =>
  match m w with
  | (w', inl e) => (w', inl e)
  | (w', inr a) => k a w'
  end.

Definition raise {A} (e : exc) : PyM A := fun w => (w, inl e).
Definition lift {A} (r : exc + A) : PyM A := fun w => (w, r).
Definition get : PyM World := fun w => (w, inr w).
Definition modify_self (f : ParsedMedication -> ParsedMedication) : PyM unit :=
  fun w => (mkWorld (heap w) (next_loc w) (formulation_regexp_cache w)
              (times_regexp_cache w) (f (self w)), inr tt).

(** The same state with another receiver. *)
Definition set_self (w : World) (m : ParsedMedication) : World :=
  mkWorld (heap w) (next_loc w) (formulation_regexp_cache w) (times_regexp_cache w) m.

(** Python sets in the heap: the contents are listed in iteration order. *)
Definition read_set (l : nat) : PyM (list string) :=
  fun w => (w, inr (default [] (heap w !! l))).
Definition write_set (l : nat) (xs : list string) : PyM unit :=
  fun w => (mkWorld (<[l := xs]> (heap w)) (next_loc w) (formulation_regexp_cache w)
              (times_regexp_cache w) (self w), inr tt).
(** [copy.copy(s)] for a set: a new set with the same elements. *)
Definition copy_set (l : nat) : PyM nat :=
  fun w => let n := next_loc w in
    (mkWorld (<[n := default [] (heap w !! l)]> (heap w)) (S n) (formulation_regexp_cache w)
       (times_regexp_cache w) (self w), inr n).

Definition set_fcache (k : option string) (v : list (string * Z)) : PyM unit :=
  fun w => (mkWorld (heap w) (next_loc w) (<[k := v]> (formulation_regexp_cache w))
              (times_regexp_cache w) (self w), inr tt).
Definition set_tcache (k : option string) (v : list (string * Z)) : PyM unit :=
  fun w => (mkWorld (heap w) (next_loc w) (formulation_regexp_cache w)
              (<[k := v]> (times_regexp_cache w)) (self w), inr tt).

(** Modelled from the spec: the keys of [MEDICATION_FIELDS] (constants.py),
    "a fixed configured list of comparable fields (name, dose, units,
    formulation, instructions)", and [self.__getattribute__(field)] on them. *)
Inductive field := FName | FDose | FUnits | FFormulation | FInstructions.

(** A text value or [None], up to Python 2's [==]: a byte string and a
    unicode object are equal when they have the same characters and these
    are ASCII (the byte string is decoded with the ASCII codec); a byte
    string with a non-ASCII byte never equals a unicode object. *)
Definition py_text (x : option string) (is_unicode : bool) : option (string * bool) :=
  option_map (fun s => (s, is_unicode && negb (Py.is_ascii s))) x.

Definition getattribute (m : ParsedMedication) (f : field) : option (string * bool) :=
  match f with
  | FName => py_text (_name m) false
  | FDose => py_text (_dose m) (dose_is_unicode m)
  | FUnits => py_text (_units m) (units_is_unicode m)
  | FFormulation => py_text (_formulation m) false
  | FInstructions => py_text (_instructions m) false
  end.

(* ------------------------------------------------------------------ *)
(** ** The methods *)

Section Code.

(** The tables of [constants.py]. *)
Variable UNDESIRABLE_PUNCTUATION : list string.
Variable physical_forms : list string.
Variable known_number_of_doses : list (string * Z).
Variable known_times_per_day : list (string * Z).
Variable abbreviations : gmap string string.
Variable MEDICATION_FIELDS : list (field * string).
(** [re.findall(regexp, s)] for the patterns of the two dose tables. *)
Variable re_findall : string -> string -> list string.

(** [Medication._normalize_field] *)
Definition _normalize_field (fld : string) : string :=
  let my_field := Py.strip (Py.upper fld) in
  let my_field := fold_left (fun f punct => Py.strip_chars punct f)
                    UNDESIRABLE_PUNCTUATION my_field in
  Py.join " " (Py.split my_field).

(** [ParsedMedication.from_text] on an initialised instance; the
    [logging.debug] of the failing branch reads [self._parsed], which exists.
    The groups of a byte-string line are byte strings. *)
Definition from_text (m : ParsedMedication) (med_line : string) : ParsedMedication :=
  let orig := Py.strip med_line in
  let m := set_text m (Some orig) (Some (_normalize_field orig)) in
  match Grammar.medication_parser_findall (_normalize_field orig) with
  | (n, d, u, f, i) :: _ =>
      set_unicode
        (set_fields m (Some (_normalize_field n)) (Some (_normalize_field d))
           (Some (_normalize_field u)) (Some (_normalize_field f))
           (Some (_normalize_field i)) true) false false
  | [] => m
  end.

(** The instance [ParsedMedication.__init__] has built once [Medication.__init__]
    returned. *)
Definition fresh (orig norm : option string) (provenance : string) (seq_id : Z)
    (context : option MappingContext) : ParsedMedication :=
  mkPM orig norm provenance seq_id None None None None None false None None None context
    false false.

(** [ParsedMedication(med_line, context, provenance)]; [seq_id] is the value of
    [_sequential_id.next()].  [Medication.__init__] calls [self.from_text],
    that is [ParsedMedication.from_text], before [ParsedMedication.__init__]
    has created [_parsed] and the other attributes. *)
Definition ParsedMedication_init (med_line : option string) (context : option MappingContext)
    (provenance : string) (seq_id : Z) : exc + ParsedMedication :=
  match med_line with
  | None => inr (fresh None None provenance seq_id context)
  | Some l =>
      let orig := Py.strip l in
      let norm := _normalize_field orig in
      match Grammar.medication_parser_findall norm with
      | [] =>
          (* logging.debug("Could not parse %s. _parsed is %r", med_line, self._parsed) *)
          inl AttributeError
      | _ :: _ =>
          (* the fields written by this first call are reset to None by
             ParsedMedication.__init__, which then calls from_text again *)
          inr (from_text (fresh (Some orig) (Some norm) provenance seq_id context) l)
      end
  end.

(** The property setters, e.g. [m.name = value], for a byte-string value. *)
Definition set_name (m : ParsedMedication) (value : string) : ParsedMedication :=
  set_fields m (Some (_normalize_field value)) (_dose m) (_units m) (_formulation m)
    (_instructions m) (_parsed m).


(** [ParsedMedication._normalize_drug_name] *)
Definition _normalize_drug_name (drug_name : string) : string :=
  let truncated := Py.upper (Py.strip (nth 0 (Py.split_on "@"%char drug_name) "")) in
  let components := Py.split truncated in
  Py.join " " (map (fun x => match abbreviations !! x with Some e => e | None => x end)
                 components).

(** [mappings] when given, else [self._context] *)
Definition choose_mappings (mappings : option MappingContext) (m : ParsedMedication)
    : option MappingContext :=
  match mappings with Some c => Some c | None => _context m end.

(** [ParsedMedication.CUIs(mappings)]: the location of the returned copy, or
    [None]. *)
Definition CUIs (mappings : option MappingContext) : PyM (option nat) :=
  w ← get;
  match choose_mappings mappings (self w) with
  | None => raise MappingContextError
  | Some ctx =>
      (match _cuis (self w), _name (self w) with
       | None, Some n =>
           match concept_names ctx !! Py.lower n with
           | Some s => concepts ← copy_set s; modify_self (fun m => set_cuis m (Some concepts))
           | None => mret tt
           end
       | _, _ => mret tt
       end);;
      w' ← get;
      match _cuis (self w') with
      | None => mret None
      | Some c => l ← copy_set c; mret (Some l)
      end
  end.

(** The last statement of [compute_generics]: the drug's own name. *)
Definition generics_fallback : PyM unit :=
  w ← get;
  match _name (self w) with
  | None => raise AttributeError      (* None.split('@') *)
  | Some n => modify_self (fun m => set_generic_formula m (Some [_normalize_drug_name n]))
  end.

(** [ParsedMedication.compute_generics(mappings)]; [concepts.pop()] removes
    the first element in iteration order. *)
Definition compute_generics (mappings : option MappingContext) : PyM unit :=
  w ← get;
  match choose_mappings mappings (self w) with
  | None => raise MappingContextError
  | Some ctx =>
      concepts ← CUIs (Some ctx);
      match concepts with
      | Some l =>
          contents ← read_set l;
          match contents with
          | [] =>
              (* pop() raises KeyError; the handler logs the unbound local [concept] *)
              raise UnboundLocalError
          | concept :: rest =>
              write_set l rest;;
              match formulas ctx !! concept with
              | Some ingredients =>
                  modify_self (fun m =>
                    set_generic_formula m (Some (map _normalize_drug_name ingredients)))
              | None => generics_fallback       (* KeyError caught *)
              end
          end
      | None => generics_fallback
      end
  end.

(** The property [generic_formula]. *)
Definition generic_formula : PyM (option (list string)) :=
  w ← get;
  match _generic_formula (self w) with
  | Some g => mret (Some g)
  | None =>
      match _context (self w) with
      | None => raise MappingContextError
      | Some _ => compute_generics None;; w' ← get; mret (_generic_formula (self w'))
      end
  end.

(** [ParsedMedication.tradenames(mappings)] *)
Definition tradenames (mappings : option MappingContext) : PyM (list string) :=
  w ← get;
  match choose_mappings mappings (self w) with
  | None => CUIs None;; mret []            (* CUIs raises: no context at all *)
  | Some ctx =>
      my_cuis ← CUIs (Some ctx);
      match my_cuis with
      | None => mret []
      | Some l =>
          ys ← read_set l;
          match map (fun y => map concept2_CUI
                       (filter (fun x => bool_decide (relation x = "tradename_of")
                                         && bool_decide (concept1_CUI x = y))
                          (relations ctx))) ys with
          | [] => raise TypeError    (* reduce() of an empty sequence *)
          | r :: rs => mret (fold_left app rs r)
          end
      end
  end.

(** The canonicalisation loop of [normalize_dose]: [for known_formulation in
    physical_forms: if known_formulation in form: form = known_formulation;
    continue]. [known in None] raises [TypeError]. *)
Fixpoint canonical_form (forms : list string) (form : option string) : exc + option string :=
  match forms with
  | [] => inr form
  | known_formulation :: rest =>
      match form with
      | None => inl TypeError
      | Some f => canonical_form rest (Some (if Py.contains known_formulation f
                                              then known_formulation else f))
      end
  end.

(** [build_regular_expressions(list_of_tuples, formulation)] *)
Definition build_regular_expressions (list_of_tuples : list (string * Z))
    (formulation : option string) : exc + list (string * Z) :=
  match formulation with
  | Some f => inr (map (fun '(k, v) => (Py.replace k "%FORM%" f, v)) list_of_tuples)
  | None => match list_of_tuples with [] => inr [] | _ :: _ => inl TypeError end
  end.

(** The two cache look-ups of [normalize_dose]. *)
Definition quantity_regexps (form : option string) : PyM (list (string * Z)) :=
  w ← get;
  match formulation_regexp_cache w !! form with
  | Some regexps => mret regexps
  | None =>
      regexps ← lift (build_regular_expressions known_number_of_doses form);
      set_fcache form regexps;; mret regexps
  end.

Definition times_regexps (form : option string) : PyM (list (string * Z)) :=
  w ← get;
  match times_regexp_cache w !! form with
  | Some regexps => mret regexps
  | None =>
      regexps ← lift (build_regular_expressions known_times_per_day form);
      set_tcache form regexps;; mret regexps
  end.

(** A pattern loop of [normalize_dose]: [acc] is [number_of_units] (or
    [times_per_day]); a value of -1 means "extract the number". *)
Fixpoint match_patterns (regexps : list (string * Z)) (instructions : option string)
    (acc : option Z) : exc + option Z :=
  match regexps with
  | [] => inr acc
  | (regexp, num) :: rest =>
      match instructions with
      | None => inl TypeError
      | Some i =>
          if Z.eqb num (-1) then
            match re_findall regexp i with
            | r :: _ =>
                match Py.int r with
                | Some n => match_patterns rest instructions (Some n)
                | None => inl ValueError
                end
            | [] => match_patterns rest instructions acc
            end
          else if Py.contains regexp i then match_patterns rest instructions (Some num)
          else match_patterns rest instructions acc
      end
  end.

(** [str(x)] for a text value or [None]: a unicode object is encoded with
    the ASCII codec, and a non-ASCII character raises [UnicodeEncodeError],
    a [ValueError]. *)
Definition py_str (x : option string) (is_unicode : bool) : exc + string :=
  match x with
  | None => inr "None"
  | Some s => if is_unicode && negb (Py.is_ascii s) then inl ValueError else inr s
  end.

(** ['%s %s*%d*%d' % (str(self.dose), self.units, times_per_day, number_of_units)].
    When [self.units] is a unicode object the byte-string format is redone
    as a unicode one, which decodes the byte string [str(self.dose)] with
    the ASCII codec: a non-ASCII byte raises [UnicodeDecodeError], a
    [ValueError].  The result is a byte string or a unicode object; its
    characters are returned. *)
Definition compose_dose (dose : option string) (dose_unicode : bool) (units : option string)
    (units_unicode : bool) (times_per_day number_of_units : Z) : exc + string :=
  match py_str dose dose_unicode with
  | inl e => inl e
  | inr sdose =>
      if match units with Some _ => units_unicode | None => false end
         && negb (Py.is_ascii sdose)
      then inl ValueError
      else inr (sdose +:+ " " +:+ Py.fmt_s units +:+ "*" +:+ Py.fmt_d times_per_day
                +:+ "*" +:+ Py.fmt_d number_of_units)
  end.

(** [ParsedMedication.normalize_dose].  The composition only raises
    [ValueError]; [except ValueError: return] leaves [_norm_dose] as it is. *)
Definition normalize_dose : PyM unit :=
  w ← get;
  let m := self w in
  form ← lift (canonical_form physical_forms (_formulation m));
  regexps ← quantity_regexps form;
  number_of_units ← lift (match_patterns regexps (_instructions m) None);
  regexps' ← times_regexps form;
  times_per_day ← lift (match_patterns regexps' (_instructions m) None);
  w' ← get;
  let m := self w' in
  match compose_dose (_dose m) (dose_is_unicode m) (_units m) (units_is_unicode m)
          (default 1 times_per_day) (default 1 number_of_units) with
  | inr d => modify_self (fun m => set_norm_dose m (Some d))
  | inl _ => mret tt
  end.

(** The property [normalized_dose]: computed on first use, then cached
    ([copy.copy] of a string is the same string). *)
Definition normalized_dose : PyM (option string) :=
  w ← get;
  match _norm_dose (self w) with
  | Some d => mret (Some d)
  | None => normalize_dose;; w' ← get; mret (_norm_dose (self w'))
  end.

(** [Medication.is_empty]: [self.normalized_string.strip() == ""]; on a
    record built without a line the normalized string is [None], and
    [None.strip()] raises [AttributeError]. *)
Definition is_empty (m : ParsedMedication) : exc + bool :=
  match _normalized_string m with
  | None => inl AttributeError
  | Some s => inr (bool_decide (Py.strip s = ""%string))
  end.

(** [ParsedMedication.fieldwise_comparison(other)]: the labels are collected
    in a set, returned as [list(result)]; the list below has the set's
    elements, each once (Python's iteration order aside). *)
Definition fieldwise_comparison (a b : ParsedMedication) : list string :=
  fold_left (fun result '(fld, label) =>
               if bool_decide (getattribute a fld = getattribute b fld)
               then (if bool_decide (label ∈ result) then result else result ++ [label])
               else result)
    MEDICATION_FIELDS [].

End Code.

(* ------------------------------------------------------------------ *)
(** ** A sample configuration, used to run the code on concrete lines *)

Module Sample.

Definition punctuation : list string := ["."; ","; ":"].
Definition forms : list string := ["TABLET"; "CAPSULE"; "PATCH"].
Definition doses : list (string * Z) := [("TAKE ONE %FORM%", 1); ("TAKE TWO %FORM%S", 2)].
Definition times : list (string * Z) := [("DAILY", 1); ("TWICE DAILY", 2)].
Definition abbrevs : gmap string string := <["HCL" := "HYDROCHLORIDE"]> ∅.
Definition fields : list (field * string) :=
  [(FName, "Name"); (FDose, "Dose"); (FUnits, "Units"); (FFormulation, "Formulation");
   (FInstructions, "Instructions")].
(** No pattern of the sample tables has the value -1, so no regular
    expression is ever searched. *)
Definition findall (_ _ : string) : list string := [].

Definition init (line : string) (ctx : option MappingContext) : exc + ParsedMedication :=
  ParsedMedication_init punctuation (Some line) ctx "admission" 0.

Definition world (m : ParsedMedication) : World := mkWorld ∅ 0 ∅ ∅ m.

Definition normalize_dose_s : PyM unit := normalize_dose forms doses times findall.

End Sample.

(** ** Invariants of the heap of sets *)

(** Every allocated location is below [next_loc], and the cached set of CUIs
    is allocated. *)
Definition wf (w : World) : Prop :=
  (∀ l xs, heap w !! l = Some xs → l < next_loc w)%nat ∧
  (∀ c, _cuis (self w) = Some c → is_Some (heap w !! c)).

(** The record's name resolves to the set [X] in [ctx]: either the cached
    set holds [X], or nothing is cached and the name index gives a set
    holding [X]. *)
Definition resolves (w : World) (ctx : MappingContext) (X : list string) : Prop :=
  (∃ c, _cuis (self w) = Some c ∧ heap w !! c = Some X) ∨
  (_cuis (self w) = None ∧ ∃ n s, _name (self w) = Some n ∧
     concept_names ctx !! Py.lower n = Some s ∧ heap w !! s = Some X).

(** ** The pattern rule in the words of the spec

    "for value == -1 patterns, attempt a numeric extraction ... and, if
    found, set quantity to the first match's integer value; for fixed-value
    patterns, test literal substring containment and set quantity to the
    fixed value if present. The last pattern in the ordered list that
    matches wins." *)





(** The class-level caches hold what [build_regular_expressions] gives. *)
Definition caches_ok (known_number_of_doses known_times_per_day : list (string * Z))
    (w : World) : Prop :=
  (∀ k v, formulation_regexp_cache w !! k = Some v →
          build_regular_expressions known_number_of_doses k = inr v) ∧
  (∀ k v, times_regexp_cache w !! k = Some v →
          build_regular_expressions known_times_per_day k = inr v).

Module Sample2.
Import Sample.

(** A parsed record (the first line of the examples above). *)
Definition lisinopril_with (ctx : option MappingContext) : ParsedMedication :=
  match init "Lisinopril 10 mg tablet; take one tablet by mouth twice daily" ctx with
  | inr m => m
  | inl _ => fresh None None "" 0 ctx
  end.

(** A MappingContext whose only name is "lisinopril", a set at location 0. *)
Definition ctx : MappingContext :=
  mkContext {[ "lisinopril" := 0%nat ]} {[ "29046" := ["lisinopril"] ]} [].

Definition world_ctx (m : ParsedMedication) : World :=
  mkWorld {[ 0%nat := ["29046"] ]} 1 ∅ ∅ m.

(** The same record with instructions no sample pattern matches. *)
Definition as_directed : ParsedMedication :=
  let m := lisinopril_with None in
  set_fields m (_name m) (_dose m) (_units m) (_formulation m) (Some "AS DIRECTED") (_parsed m).

(** The same context with two relations of "29046", one a "tradename_of". *)
Definition ctx_tn : MappingContext :=
  mkContext (concept_names ctx) (formulas ctx)
    [mkRelation "tradename_of" "29046" "PRINIVIL"; mkRelation "has_form" "29046" "TABLET"].

(** The parsed record with a context, in the world whose set 0 holds "29046". *)
Definition w_lis : World := world_ctx (lisinopril_with (Some ctx)).
Definition w_tn : World := world_ctx (lisinopril_with (Some ctx_tn)).

(** The name index gives an empty set of CUIs. *)
Definition w_empty : World := mkWorld {[ 0%nat := [] ]} 1 ∅ ∅ (lisinopril_with (Some ctx)).

(** The caches [normalize_dose] leaves after a run on [m0], with record [m]. *)
Definition warm (m0 m : ParsedMedication) : World :=
  let w := fst (normalize_dose_s (world m0)) in
  mkWorld ∅ 0 (formulation_regexp_cache w) (times_regexp_cache w) m.

(** The byte 0xBD: [u'\xbd'] ("1/2") as a unicode value. *)
Definition half : string := String (ascii_of_nat 189) EmptyString.

(** The record [as_directed] after [m.dose = u'\xbd']: [_normalize_field]
    leaves [u'\xbd'] as it is (it has no case and is neither whitespace nor
    punctuation), so [_dose] holds that unicode object. *)
Definition unicode_dose : ParsedMedication :=
  set_unicode
    (set_fields as_directed (_name as_directed) (Some half) (_units as_directed)
       (_formulation as_directed) (_instructions as_directed) (_parsed as_directed))
    true (units_is_unicode as_directed).

End Sample2.

(* ------------------------------------------------------------------ *)
(** ** Properties *)

Section Proofs.

Context (UNDESIRABLE_PUNCTUATION physical_forms : list string)
        (known_number_of_doses known_times_per_day : list (string * Z))
        (abbreviations : gmap string string)
        (MEDICATION_FIELDS : list (field * string))
        (re_findall : string -> string -> list string).

Local Abbreviation ndose :=
  (normalize_dose physical_forms known_number_of_doses known_times_per_day re_findall).

Ltac pym :=
  unfold mbind, PyM_bind, mret, PyM_ret, get, lift, modify_self, raise, read_set,
    write_set, copy_set, set_fcache, set_tcache in *; simpl in *.

Lemma set_norm_dose_same m : set_norm_dose m (_norm_dose m) = m.
Proof. by destruct m. Qed.

Lemma quantity_regexps_frame form w w' r :
  quantity_regexps known_number_of_doses form w = (w', r) →
  heap w' = heap w ∧ next_loc w' = next_loc w ∧ self w' = self w ∧
  times_regexp_cache w' = times_regexp_cache w.
Proof.
  unfold quantity_regexps; pym.
  destruct (formulation_regexp_cache w !! form).
  - by intros [= <- _].
  - destruct (build_regular_expressions known_number_of_doses form); simpl.
    + by intros [= <- _].
    + by intros [= <- _].
Qed.

Lemma times_regexps_frame form w w' r :
  times_regexps known_times_per_day form w = (w', r) →
  heap w' = heap w ∧ next_loc w' = next_loc w ∧ self w' = self w ∧
  formulation_regexp_cache w' = formulation_regexp_cache w.
Proof.
  unfold times_regexps; pym.
  destruct (times_regexp_cache w !! form).
  - by intros [= <- _].
  - destruct (build_regular_expressions known_times_per_day form); simpl.
    + by intros [= <- _].
    + by intros [= <- _].
Qed.






(** C9.  [normalize_dose] changes no attribute of the record but
    [_norm_dose]: the stored formulation, name, dose, units, instructions,
    original and normalised text are the same afterwards, whether it returns
    or raises; the heap of sets is untouched too. *)
Theorem normalize_dose_frame w :
  let w' := fst (ndose w) in
  ∃ v, self w' = set_norm_dose (self w) v ∧ heap w' = heap w ∧ next_loc w' = next_loc w.
Proof.
  unfold normalize_dose; pym.
  destruct (canonical_form physical_forms (_formulation (self w))) as [e|form]; simpl.
  { exists (_norm_dose (self w)). by rewrite set_norm_dose_same. }
  destruct (quantity_regexps known_number_of_doses form w) as [w1 [e|r1]] eqn:E1;
    apply quantity_regexps_frame in E1 as (H1 & H1' & H1'' & _); simpl.
  { exists (_norm_dose (self w)). rewrite H1'', set_norm_dose_same. done. }
  destruct (match_patterns re_findall r1 (_instructions (self w)) None) as [e|n]; simpl.
  { exists (_norm_dose (self w)). rewrite H1'', set_norm_dose_same. done. }
  destruct (times_regexps known_times_per_day form w1) as [w2 [e|r2]] eqn:E2;
    apply times_regexps_frame in E2 as (H2 & H2' & H2'' & _); simpl.
  { exists (_norm_dose (self w)). rewrite H2'', H1'', set_norm_dose_same. repeat split; congruence. }
  destruct (match_patterns re_findall r2 (_instructions (self w)) None) as [e|t]; simpl.
  { exists (_norm_dose (self w)). rewrite H2'', H1'', set_norm_dose_same. repeat split; congruence. }
  rewrite H2'', H1''. destruct (compose_dose _ _ _ _ _ _) as [e|d]; simpl;
    rewrite ?H2'', ?H1''.
  - exists (_norm_dose (self w)). rewrite set_norm_dose_same. repeat split; congruence.
  - exists (Some d). repeat split; congruence.
Qed.


Lemma canonical_form_stays forms k :
  (∀ k', In k' forms → Py.contains k' k = true → k' = k) →
  canonical_form forms (Some k) = inr (Some k).
Proof.
  induction forms as [|k0 forms IH]; intros H; simpl; [done|].
  destruct (Py.contains k0 k) eqn:E.
  - rewrite (H k0 (or_introl eq_refl) E). apply IH. intros k' Hk'. apply H. by right.
  - apply IH. intros k' Hk'. apply H. by right.
Qed.

Lemma canonical_form_first forms f :
  (∀ k1 k2, In k1 forms → In k2 forms → Py.contains k2 k1 = true → k2 = k1) →
  canonical_form forms (Some f) =
    inr (Some (match find (fun k => Py.contains k f) forms with Some k => k | None => f end)).
Proof.
  induction forms as [|k0 forms IH]; intros H; simpl; [done|].
  destruct (Py.contains k0 f) eqn:E.
  - apply canonical_form_stays. intros k' Hk' Hc.
    apply (H k0 k'); [by left|by right|done].
  - apply IH. intros k1 k2 H1 H2. apply H; by right.
Qed.

(** C2 (amended).  The canonicalisation loop tests each known form against
    the current form, which an earlier match has already replaced; so when no
    known form occurs inside another one, the form used for the pattern
    look-up is the FIRST known form, in list order, occurring in the stored
    formulation (the stored formulation itself when there is none). *)
Theorem canonical_form_first_match f :
  (∀ k1 k2, In k1 physical_forms → In k2 physical_forms →
            Py.contains k2 k1 = true → k2 = k1) →
  canonical_form physical_forms (Some f) =
    inr (Some (match find (fun k => Py.contains k f) physical_forms with
               | Some k => k
               | None => f
               end)).
Proof. apply canonical_form_first. Qed.







Lemma contains_single c l :
  Py.contains_l [c] l = existsb (Py.ascii_eqb c) l.
Proof. induction l as [|x l IH]; simpl; [done|]. rewrite andb_true_r. by rewrite IH. Qed.

Section Punctuation.

Variable q : string.
Hypothesis q_no_space : Py.contains " " q = false.
Hypothesis q_no_A : Py.contains "A" q = false.

Local Definition has_dot (q : string) : bool := Py.contains "." q.

Ltac strip_q :=
  unfold has_dot, Py.contains in *; cbn [Py.chars_of list_ascii_of_string] in *;
  rewrite ?contains_single in *;
  unfold Py.strip_chars, Py.strip_by, Py.rstrip_by;
  remember (Py.chars_of q) as cs;
  cbn -[Py.ascii_eqb]; rewrite ?q_no_space, ?q_no_A; cbn -[Py.ascii_eqb];
  destruct (existsb (Py.ascii_eqb ".") cs); cbn -[Py.ascii_eqb];
  rewrite ?q_no_space, ?q_no_A; cbn -[Py.ascii_eqb]; rewrite ?q_no_space, ?q_no_A;
  reflexivity.

Lemma strip_chars_dot_space_dot_A :
  Py.strip_chars q ". .A" = if has_dot q then " .A" else ". .A".
Proof. strip_q. Qed.

Lemma strip_chars_space_dot_A : Py.strip_chars q " .A" = " .A".
Proof. strip_q. Qed.

Lemma strip_chars_dot_A : Py.strip_chars q ".A" = if has_dot q then "A" else ".A".
Proof. strip_q. Qed.

Lemma strip_chars_A : Py.strip_chars q "A" = "A".
Proof. strip_q. Qed.

End Punctuation.

Lemma fold_strip_fixed (P : list string) s :
  (∀ q, In q P → Py.strip_chars q s = s) →
  fold_left (fun f punct => Py.strip_chars punct f) P s = s.
Proof.
  induction P as [|q P IH]; intros H; simpl; [done|].
  rewrite H by (by left). apply IH. intros; apply H; by right.
Qed.

Lemma fold_strip_two (P : list string) s t :
  (∀ q, In q P → Py.strip_chars q s = if has_dot q then t else s) →
  (∀ q, In q P → Py.strip_chars q t = t) →
  fold_left (fun f punct => Py.strip_chars punct f) P s =
    if existsb has_dot P then t else s.
Proof.
  induction P as [|q P IH]; intros Hs Ht; simpl; [done|].
  rewrite Hs by (by left). destruct (has_dot q); simpl.
  - apply fold_strip_fixed. intros; apply Ht; by right.
  - apply IH; intros; [apply Hs|apply Ht]; by right.
Qed.

(** C4.  [_normalize_field] is not idempotent: as soon as "." is one of the
    undesirable punctuation strings (and none of them holds a space or an
    "A"), ". .A" normalises to ".A", which normalises to "A".  The single
    pass of [strip(punct)] removes the first "." only; the space behind it
    shields the second one, and the space is only dropped afterwards by the
    whitespace collapse. *)
Theorem _normalize_field_not_idempotent :
  In "." UNDESIRABLE_PUNCTUATION →
  (∀ q, In q UNDESIRABLE_PUNCTUATION → Py.contains " " q = false ∧ Py.contains "A" q = false) →
  _normalize_field UNDESIRABLE_PUNCTUATION ". .A" = ".A" ∧
  _normalize_field UNDESIRABLE_PUNCTUATION ".A" = "A" ∧
  _normalize_field UNDESIRABLE_PUNCTUATION (_normalize_field UNDESIRABLE_PUNCTUATION ". .A") ≠
    _normalize_field UNDESIRABLE_PUNCTUATION ". .A".
Proof.
  intros Hdot Hq.
  assert (Hex : existsb has_dot UNDESIRABLE_PUNCTUATION = true).
  { apply existsb_exists. exists ".". split; [done|]. reflexivity. }
  assert (E1 : _normalize_field UNDESIRABLE_PUNCTUATION ". .A" = ".A").
  { unfold _normalize_field.
    change (Py.strip (Py.upper ". .A")) with ". .A".
    rewrite (fold_strip_two _ ". .A" " .A").
    - by rewrite Hex.
    - intros q Hin. destruct (Hq q Hin). by apply strip_chars_dot_space_dot_A.
    - intros q Hin. destruct (Hq q Hin). by apply strip_chars_space_dot_A. }
  assert (E2 : _normalize_field UNDESIRABLE_PUNCTUATION ".A" = "A").
  { unfold _normalize_field.
    change (Py.strip (Py.upper ".A")) with ".A".
    rewrite (fold_strip_two _ ".A" "A").
    - by rewrite Hex.
    - intros q Hin. destruct (Hq q Hin). by apply strip_chars_dot_A.
    - intros q Hin. destruct (Hq q Hin). by apply strip_chars_A. }
  split; [done|]. split; [done|]. rewrite E1, E2. discriminate.
Qed.

(** *** Where a ";" of the normalised line can come from *)

Lemma chars_of_str_of l : Py.chars_of (Py.str_of l) = l.
Proof. apply list_ascii_of_string_of_list_ascii. Qed.

Lemma chars_of_append a b : Py.chars_of (a +:+ b) = Py.chars_of a ++ Py.chars_of b.
Proof. induction a as [|x a IH]; simpl; [done|]. unfold Py.chars_of in *. by rewrite IH. Qed.

Lemma upper_char_semi x : Py.upper_char x = ";"%char → x = ";"%char.
Proof. destruct x as [[] [] [] [] [] [] [] []]; vm_compute; congruence. Qed.

Lemma in_lstrip_by p l c : In c (Py.lstrip_by p l) → In c l.
Proof.
  induction l as [|x l IH]; simpl; [done|].
  destruct (p x); [intros H; right; by apply IH|done].
Qed.

Lemma in_strip_by p l c : In c (Py.strip_by p l) → In c l.
Proof.
  unfold Py.strip_by, Py.rstrip_by. intros H.
  apply (proj2 (in_rev _ _)), in_lstrip_by, (proj2 (in_rev _ _)), in_lstrip_by in H.
  done.
Qed.

Lemma in_split_ws_aux l cur piece c :
  In piece (Py.split_ws_aux l cur) → In c piece → In c l ∨ In c cur.
Proof.
  revert cur; induction l as [|x l IH]; intros cur; cbn [Py.split_ws_aux].
  - destruct cur as [|y cur]; [done|]. intros [<-|[]] Hc. right. by apply in_rev.
  - destruct (Py.is_space x).
    + destruct cur as [|y cur].
      * intros Hp Hc. destruct (IH [] Hp Hc) as [H|[]]. by left; right.
      * intros [<-|Hp] Hc.
        -- right. by apply in_rev.
        -- destruct (IH [] Hp Hc) as [H|[]]. by left; right.
    + intros Hp Hc. destruct (IH (x :: cur) Hp Hc) as [H|[<-|H]].
      * by left; right.
      * by left; left.
      * by right.
Qed.

Lemma in_fold_strip P s0 c :
  In c (Py.chars_of (fold_left (fun f punct => Py.strip_chars punct f) P s0)) →
  In c (Py.chars_of s0).
Proof.
  revert s0; induction P as [|q P IH]; intros s0; simpl; [done|].
  intros H. apply IH in H. unfold Py.strip_chars in H.
  rewrite chars_of_str_of in H. by apply in_strip_by in H.
Qed.

Lemma in_join_space parts c :
  In c (Py.chars_of (Py.join " " parts)) →
  c = " "%char ∨ ∃ p, In p parts ∧ In c (Py.chars_of p).
Proof.
  induction parts as [|p parts IH]; simpl; [done|].
  destruct parts as [|p' parts'].
  - intros H. right. exists p. auto.
  - rewrite !chars_of_append. intros H. apply in_app_iff in H as [H|H].
    + right. exists p. auto.
    + apply in_app_iff in H as [H|H].
      * left. vm_compute in H. by destruct H as [<-|[]].
      * destruct (IH H) as [E|(p0 & Hp0 & Hc)]; [by left|].
        right. exists p0. auto.
Qed.

Lemma in_normalize_field P fld c :
  In c (Py.chars_of (_normalize_field P fld)) →
  c = " "%char ∨ ∃ x, In x (Py.chars_of fld) ∧ Py.upper_char x = c.
Proof.
  unfold _normalize_field. intros H.
  apply in_join_space in H as [->|(p & Hp & Hc)]; [by left|right].
  unfold Py.split in Hp. apply in_map_iff in Hp as (piece & <- & Hp).
  rewrite chars_of_str_of in Hc.
  destruct (in_split_ws_aux _ _ _ _ Hp Hc) as [H|[]].
  apply in_fold_strip in H. unfold Py.strip in H. rewrite chars_of_str_of in H.
  apply in_strip_by in H. unfold Py.upper in H. rewrite chars_of_str_of in H.
  apply in_map_iff in H as (x & Hx & Hin). eauto.
Qed.


Lemma span_greedy_app p l a b : In (a, b) (Grammar.span_greedy p l) → l = a ++ b.
Proof.
  revert a b; induction l as [|c l IH]; intros a b; simpl.
  - by intros [[= <- <-]|[]].
  - destruct (p c).
    + intros H. apply in_app_iff in H as [H|[[= <- <-]|[]]]; [|done].
      apply in_map_iff in H as ([a' b'] & [= <- <-] & H). by rewrite (IH a' b' H).
    + by intros [[= <- <-]|[]].
Qed.

Lemma span_lazy_app p l a b : In (a, b) (Grammar.span_lazy p l) → l = a ++ b.
Proof. unfold Grammar.span_lazy. intros H. by apply (proj2 (in_rev _ _)), span_greedy_app in H. Qed.

Lemma span_greedy1_app p l a b : In (a, b) (Grammar.span_greedy1 p l) → l = a ++ b.
Proof.
  unfold Grammar.span_greedy1. destruct l as [|c l]; [done|]. destruct (p c); [|done].
  intros H. apply in_map_iff in H as ([a' b'] & [= <- <-] & H).
  by rewrite (span_greedy_app _ _ _ _ H).
Qed.

Lemma prefix_ci_app w l m r : Grammar.prefix_ci w l = Some (m, r) → l = m ++ r.
Proof.
  revert l m r; induction w as [|x w IH]; intros l m r; simpl.
  - by intros [= <- <-].
  - destruct l as [|y l]; [done|].
    destruct (Py.ascii_eqb _ _); [|done].
    destruct (Grammar.prefix_ci w l) as [[m' r']|] eqn:E; simpl; [|done].
    intros [= <- <-]. by rewrite (IH _ _ _ E).
Qed.

Lemma units_matches_app l m r : In (m, r) (Grammar.units_matches l) → l = m ++ r.
Proof.
  unfold Grammar.units_matches. intros H.
  apply in_flat_map in H as (w & _ & H).
  destruct (Grammar.prefix_ci (Py.chars_of w) l) as [[m' r']|] eqn:E; [|done].
  destruct H as [[= <- <-]|[]]. by apply prefix_ci_app in E.
Qed.

Lemma ascii_eqb_true a b : Py.ascii_eqb a b = true → a = b.
Proof. unfold Py.ascii_eqb. by destruct (ascii_dec a b). Qed.

(** Every match of the line grammar goes through its mandatory ";". *)
Lemma parser_matches_semi l g : In g (Grammar.parser_matches l) → In ";"%char l.
Proof.
  unfold Grammar.parser_matches. intros H.
  do 8 (apply in_flat_map in H as ([? ?] & ? & H); cbv beta iota in H).
  match type of H with context [match ?s8 with _ => _ end] =>
    destruct s8 as [|c s9] eqn:E8 end; [done|].
  destruct (Py.ascii_eqb c ";") eqn:Ec; [|done]. apply ascii_eqb_true in Ec. subst c.
  repeat match goal with
  | H : In (_, _) (Grammar.span_greedy _ _) |- _ => apply span_greedy_app in H
  | H : In (_, _) (Grammar.span_lazy _ _) |- _ => apply span_lazy_app in H
  | H : In (_, _) (Grammar.span_greedy1 _ _) |- _ => apply span_greedy1_app in H
  | H : In (_, _) (Grammar.units_matches _) |- _ => apply units_matches_app in H
  end.
  subst. rewrite !in_app_iff. simpl. tauto.
Qed.

Lemma findall_no_semi s :
  ¬ In ";"%char (Py.chars_of s) → Grammar.medication_parser_findall s = [].
Proof.
  unfold Grammar.medication_parser_findall. intros Hs.
  destruct (Grammar.parser_matches (Py.chars_of s)) as [|g gs] eqn:E; [done|].
  exfalso. apply Hs, (parser_matches_semi _ g). rewrite E. by left.
Qed.

Lemma contains_semi_false s : Py.contains ";" s = false → ¬ In ";"%char (Py.chars_of s).
Proof.
  unfold Py.contains. cbn [Py.chars_of list_ascii_of_string]. rewrite contains_single.
  intros H Hin. assert (existsb (Py.ascii_eqb ";") (Py.chars_of s) = true) as H'
    by (apply existsb_exists; exists ";"%char; split; [done|]; by vm_compute).
  congruence.
Qed.

(** C5.  Constructing a [ParsedMedication] from a line without ";" raises
    [AttributeError]: [Medication.__init__] calls the overriding
    [ParsedMedication.from_text] before [ParsedMedication.__init__] has
    created [_parsed], and the failing branch reads [self._parsed] for its
    [logging.debug]. No record with [is_parsed = False] is produced. *)
Theorem ParsedMedication_init_no_semicolon_raises line context provenance seq_id :
  Py.contains ";" line = false →
  ParsedMedication_init UNDESIRABLE_PUNCTUATION (Some line) context provenance seq_id =
    inl AttributeError.
Proof.
  intros H. apply contains_semi_false in H.
  unfold ParsedMedication_init.
  rewrite findall_no_semi; [done|].
  intros Hin. apply in_normalize_field in Hin as [E|(x & Hx & Eu)]; [discriminate|].
  apply upper_char_semi in Eu as ->.
  unfold Py.strip in Hx. rewrite chars_of_str_of in Hx. apply in_strip_by in Hx.
  by apply H.
Qed.

(** C6 (amended).  Without a MappingContext on the record and none passed,
    [CUIs], [compute_generics] and [tradenames] raise MappingContextError
    and change nothing; the property [generic_formula] raises it only when
    no generic formula is cached, and otherwise returns the cached one. *)
Theorem no_context_raises w :
  _context (self w) = None →
  CUIs None w = (w, inl MappingContextError) ∧
  compute_generics abbreviations None w = (w, inl MappingContextError) ∧
  tradenames None w = (w, inl MappingContextError) ∧
  generic_formula abbreviations w =
    match _generic_formula (self w) with
    | Some g => (w, inr (Some g))
    | None => (w, inl MappingContextError)
    end.
Proof.
  intros H.
  assert (HC : CUIs None w = (w, inl MappingContextError))
    by (unfold CUIs, choose_mappings; pym; by rewrite H).
  split; [done|]. split.
  { unfold compute_generics, choose_mappings; pym. by rewrite H. }
  split.
  { unfold tradenames, choose_mappings; pym. rewrite H. by rewrite HC. }
  unfold generic_formula; pym. destruct (_generic_formula (self w)); [done|]. by rewrite H.
Qed.

Lemma CUIs_unresolved mappings w ctx n :
  choose_mappings mappings (self w) = Some ctx → _name (self w) = Some n →
  _cuis (self w) = None → concept_names ctx !! Py.lower n = None →
  CUIs mappings w = (w, inr None).
Proof.
  intros Hm Hn Hc Hl. unfold CUIs; pym. rewrite Hm, Hc, Hn, Hl. simpl. by rewrite Hc.
Qed.

Lemma generics_fallback_spec w n :
  _name (self w) = Some n →
  ∃ w', generics_fallback abbreviations w = (w', inr tt) ∧
        _generic_formula (self w') = Some [_normalize_drug_name abbreviations n].
Proof. intros Hn. unfold generics_fallback; pym. rewrite Hn. by eexists. Qed.

Lemma CUIs_same_name mappings w w' r :
  CUIs mappings w = (w', r) → _name (self w') = _name (self w).
Proof.
  unfold CUIs; pym. repeat (case_match; simpl).
  all: intros Hw; by simplify_eq/=.
Qed.

(** C7 (amended).  [compute_generics] falls back to the one-element formula
    made of the record's own name, abbreviations expanded, (a) when nothing
    is cached and the name index has no entry for the lowercased name, and
    (b) when the concept it pops from the set [CUIs] gives has no ingredient
    list.  A set already cached on the record is used instead of the name
    index (see the counterexample). *)
Theorem compute_generics_fallback :
  (∀ mappings w ctx n,
     choose_mappings mappings (self w) = Some ctx → _name (self w) = Some n →
     _cuis (self w) = None → concept_names ctx !! Py.lower n = None →
     ∃ w', compute_generics abbreviations mappings w = (w', inr tt) ∧
           _generic_formula (self w') = Some [_normalize_drug_name abbreviations n]) ∧
  (∀ mappings w ctx n w1 l concept rest,
     choose_mappings mappings (self w) = Some ctx → _name (self w) = Some n →
     CUIs (Some ctx) w = (w1, inr (Some l)) → heap w1 !! l = Some (concept :: rest) →
     formulas ctx !! concept = None →
     ∃ w', compute_generics abbreviations mappings w = (w', inr tt) ∧
           _generic_formula (self w') = Some [_normalize_drug_name abbreviations n]).
Proof.
  split.
  - intros mappings w ctx n Hm Hn Hc Hl.
    assert (HC : CUIs (Some ctx) w = (w, inr None)).
    { by apply (CUIs_unresolved (Some ctx) w ctx n). }
    unfold compute_generics; pym. rewrite Hm, HC. simpl.
    by apply generics_fallback_spec.
  - intros mappings w ctx n w1 l concept rest Hm Hn HC Hl Hf.
    pose proof (CUIs_same_name _ _ _ _ HC) as Hn1.
    unfold compute_generics; pym. rewrite Hm, HC. simpl. rewrite Hl. simpl. rewrite Hf.
    apply generics_fallback_spec. simpl. congruence.
Qed.

Lemma fieldwise_fold (F : list (field * string)) a b acc :
  NoDup acc →
  NoDup (fold_left (fun result '(fld, label) =>
            if bool_decide (getattribute a fld = getattribute b fld)
            then (if bool_decide (label ∈ result) then result else result ++ [label])
            else result) F acc) ∧
  ∀ label, In label (fold_left (fun result '(fld, label) =>
            if bool_decide (getattribute a fld = getattribute b fld)
            then (if bool_decide (label ∈ result) then result else result ++ [label])
            else result) F acc) ↔
           In label acc ∨ ∃ fld, In (fld, label) F ∧ getattribute a fld = getattribute b fld.
Proof.
  revert acc; induction F as [|[fld lab] F IH]; intros acc Hnd; simpl.
  - split; [done|]. intros label. split; [by left|]. by intros [H|(? & [] & _)].
  - case_bool_decide as Heq.
    + case_bool_decide as Hin.
      * destruct (IH acc Hnd) as [IH1 IH2]. split; [done|]. intros label.
        rewrite IH2. split.
        -- intros [H|(f & Hf & He)]; [by left|right; eauto].
        -- intros [H|(f & [[= <- <-]|Hf] & He)]; [by left| |right; eauto].
           left. by apply list_elem_of_In.
      * assert (Hnd' : NoDup (acc ++ [lab])).
        { apply NoDup_app. split; [done|]. split; [|apply NoDup_singleton].
          intros x Hx Hy. apply list_elem_of_singleton in Hy as ->. done. }
        destruct (IH _ Hnd') as [IH1 IH2]. split; [done|]. intros label.
        rewrite IH2, in_app_iff. simpl. split.
        -- intros [[H|[<-|[]]]|(f & Hf & He)]; [by left|right; eauto|right; eauto].
        -- intros [H|(f & [[= <- <-]|Hf] & He)]; [by left; left|by left; right; left|].
           right; eauto.
    + destruct (IH acc Hnd) as [IH1 IH2]. split; [done|]. intros label.
      rewrite IH2. split.
      * intros [H|(f & Hf & He)]; [by left|right; eauto].
      * intros [H|(f & [[= <- <-]|Hf] & He)]; [by left|done|right; eauto].
Qed.

(** C8.  [fieldwise_comparison a b] lists each label at most once (it is
    [list] of a set), a label is in it exactly when a configured field with
    that label has equal values in [a] and [b], and comparing a record with
    itself gives every configured label. *)
Theorem fieldwise_comparison_spec a b :
  NoDup (fieldwise_comparison MEDICATION_FIELDS a b) ∧
  (∀ label, In label (fieldwise_comparison MEDICATION_FIELDS a b) ↔
            ∃ fld, In (fld, label) MEDICATION_FIELDS ∧ getattribute a fld = getattribute b fld) ∧
  (∀ label, In label (fieldwise_comparison MEDICATION_FIELDS a a) ↔
            In label (map snd MEDICATION_FIELDS)).
Proof.
  unfold fieldwise_comparison.
  destruct (fieldwise_fold MEDICATION_FIELDS a b [] (NoDup_nil_2)) as [H1 H2].
  destruct (fieldwise_fold MEDICATION_FIELDS a a [] (NoDup_nil_2)) as [_ H3].
  split; [done|]. split.
  - intros label. rewrite H2. split; [by intros [[]|H]|by right].
  - intros label. rewrite H3, in_map_iff. split.
    + intros [[]|(f & Hf & _)]. by exists (f, label).
    + intros ([f l] & <- & Hf). right. by exists f.
Qed.

Lemma CUIs_cached mappings w ctx c :
  choose_mappings mappings (self w) = Some ctx → _cuis (self w) = Some c →
  CUIs mappings w =
    (mkWorld (<[next_loc w := default [] (heap w !! c)]> (heap w)) (S (next_loc w))
       (formulation_regexp_cache w) (times_regexp_cache w) (self w), inr (Some (next_loc w))).
Proof. intros Hm Hc. unfold CUIs; pym. rewrite Hm, Hc. simpl. by rewrite Hc. Qed.

Lemma CUIs_resolve mappings w ctx n s :
  choose_mappings mappings (self w) = Some ctx → _cuis (self w) = None →
  _name (self w) = Some n → concept_names ctx !! Py.lower n = Some s →
  CUIs mappings w =
    (mkWorld (<[S (next_loc w) := default [] (heap w !! s)]>
               (<[next_loc w := default [] (heap w !! s)]> (heap w)))
       (S (S (next_loc w))) (formulation_regexp_cache w) (times_regexp_cache w)
       (set_cuis (self w) (Some (next_loc w))), inr (Some (S (next_loc w)))).
Proof.
  intros Hm Hc Hn Hs. unfold CUIs; pym. rewrite Hm, Hc, Hn, Hs. simpl.
  by rewrite lookup_insert_eq.
Qed.

Lemma wf_lt w c xs : wf w → heap w !! c = Some xs → (c < next_loc w)%nat.
Proof. intros [H _] Hc. by apply (H c xs). Qed.

Lemma wf_alloc w l xs :
  wf w → (next_loc w ≤ l)%nat →
  (∀ k ys, <[l := xs]> (heap w) !! k = Some ys → (k < S l)%nat).
Proof.
  intros [H _] Hl k ys Hk. destruct (decide (k = l)) as [->|Hne]; [lia|].
  rewrite lookup_insert_ne in Hk by done. specialize (H _ _ Hk). lia.
Qed.

(** [compute_generics] on a record with a cached set [c]: the pop works on a
    fresh copy, so the cache location, its contents and the record's
    [_cuis] and [_context] are kept, and the world stays well formed. *)
Lemma compute_generics_keeps_cache w c w2 r :
  wf w → _cuis (self w) = Some c → compute_generics abbreviations None w = (w2, r) →
  _cuis (self w2) = Some c ∧ _context (self w2) = _context (self w) ∧
  heap w2 !! c = heap w !! c ∧ wf w2.
Proof.
  intros Hwf Hc. pose proof Hwf as [Hlt Hcu].
  destruct (Hcu c Hc) as [X HX].
  pose proof (Hlt _ _ HX) as Hcn.
  unfold compute_generics, generics_fallback; pym.
  destruct (_context (self w)) as [ctx|] eqn:Hm.
  2:{ intros [= <- _]. by repeat split. }
  rewrite (CUIs_cached (Some ctx) w ctx c eq_refl Hc). simpl. rewrite lookup_insert_eq. simpl.
  assert (Hwf1 : ∀ k ys, <[next_loc w := X]> (heap w) !! k = Some ys → (k < S (next_loc w))%nat).
  { apply wf_alloc; [done|lia]. }
  rewrite HX. simpl.
  destruct X as [|concept rest].
  - intros [= <- _]. simpl. rewrite lookup_insert_ne by lia.
    split; [done|]. split; [done|]. split; [done|]. split; [done|].
    intros c' Hc'. simpl in Hc'. rewrite Hc in Hc'. injection Hc' as <-.
    simpl. rewrite lookup_insert_ne by lia. by eexists.
  - assert (Hwf2 : ∀ k ys, <[next_loc w := rest]> (<[next_loc w := concept :: rest]> (heap w)) !! k = Some ys → (k < S (next_loc w))%nat).
    { intros k ys. rewrite insert_insert_eq. apply wf_alloc; [done|lia]. }
    assert (Hc2 : <[next_loc w := rest]> (<[next_loc w := concept :: rest]> (heap w)) !! c = Some (concept :: rest)).
    { rewrite lookup_insert_ne by lia. rewrite lookup_insert_ne by lia. done. }
    repeat case_match; intros Hr; simplify_eq/=;
      (split; [done|]; split; [done|]; split; [done|];
       split; [exact Hwf2|]; intros c' Hc'; simpl in Hc'; rewrite Hc in Hc'; injection Hc' as <-;
       simpl; rewrite Hc2; by eexists).
Qed.

(** C10.  Once a record's name resolves to a set [X] (cached already, or
    found through the name index), [CUIs] returns a fresh copy [l] of the
    cached set [c]: writing any value at [l] leaves [c] holding [X]; a later
    [compute_generics], which pops from the set it obtains, keeps the cache
    at [c] holding [X], and a further [CUIs] call returns again a fresh set
    with the contents [X]. *)
Theorem CUIs_copy_isolated w ctx X :
  wf w → _context (self w) = Some ctx → resolves w ctx X →
  ∃ w1 c l,
    CUIs None w = (w1, inr (Some l)) ∧ _cuis (self w1) = Some c ∧ l ≠ c ∧
    heap w1 !! c = Some X ∧ heap w1 !! l = Some X ∧
    (∀ Y, <[l := Y]> (heap w1) !! c = Some X) ∧
    (∀ w2 r, compute_generics abbreviations None w1 = (w2, r) →
       _cuis (self w2) = Some c ∧ heap w2 !! c = Some X ∧
       ∃ w3 l3, CUIs None w2 = (w3, inr (Some l3)) ∧ l3 ≠ c ∧ heap w3 !! l3 = Some X).
Proof.
  intros Hwf Hctx Hres.
  assert (Hm : choose_mappings None (self w) = Some ctx) by (simpl; done).
  assert (Hstep : ∀ w1 c l, wf w1 → _context (self w1) = Some ctx →
            CUIs None w = (w1, inr (Some l)) → _cuis (self w1) = Some c → l ≠ c →
            heap w1 !! c = Some X → heap w1 !! l = Some X →
            ∃ w1 c l,
              CUIs None w = (w1, inr (Some l)) ∧ _cuis (self w1) = Some c ∧ l ≠ c ∧
              heap w1 !! c = Some X ∧ heap w1 !! l = Some X ∧
              (∀ Y, <[l := Y]> (heap w1) !! c = Some X) ∧
              (∀ w2 r, compute_generics abbreviations None w1 = (w2, r) →
                 _cuis (self w2) = Some c ∧ heap w2 !! c = Some X ∧
                 ∃ w3 l3, CUIs None w2 = (w3, inr (Some l3)) ∧ l3 ≠ c ∧
                          heap w3 !! l3 = Some X)).
  { intros w1 c l Hwf1 Hctx1 HC Hc1 Hlc HcX HlX.
    exists w1, c, l. do 5 (split; [done|]). split.
    - intros Y. by rewrite lookup_insert_ne by congruence.
    - intros w2 r Hg.
      destruct (compute_generics_keeps_cache _ _ _ _ Hwf1 Hc1 Hg) as (Hc2 & Hx2 & Hh2 & Hwf2).
      split; [done|]. split; [congruence|].
      assert (Hm2 : choose_mappings None (self w2) = Some ctx) by (simpl; congruence).
      rewrite (CUIs_cached _ _ _ _ Hm2 Hc2).
      eexists _, _. split; [done|]. simpl.
      rewrite lookup_insert_eq, Hh2, HcX. split; [|done].
      pose proof (wf_lt _ _ _ Hwf2 (eq_trans Hh2 HcX)). lia. }
  destruct Hres as [(c & Hc & HcX)|(Hc & n & s & Hn & Hs & HsX)].
  - pose proof (CUIs_cached None w ctx c Hm Hc) as HC. rewrite HcX in HC. simpl in HC.
    pose proof (wf_lt _ _ _ Hwf HcX) as Hlt.
    eapply Hstep; [| |exact HC| | | |]; simpl.
    + split; simpl.
      * apply wf_alloc; [done|lia].
      * intros c' Hc'. rewrite Hc in Hc'. injection Hc' as <-.
        rewrite lookup_insert_ne by lia. by eexists.
    + done.
    + exact Hc.
    + lia.
    + rewrite lookup_insert_ne by lia. done.
    + by rewrite lookup_insert_eq.
  - pose proof (CUIs_resolve None w ctx n s Hm Hc Hn Hs) as HC. rewrite HsX in HC. simpl in HC.
    eapply Hstep; [| |exact HC| | | |]; simpl.
    + split; simpl.
      * intros k ys Hk. destruct (decide (k = S (next_loc w))) as [->|Hne]; [lia|].
        rewrite lookup_insert_ne in Hk by done.
        eapply (wf_alloc w (next_loc w) X Hwf) in Hk; lia.
      * intros c' Hc'. injection Hc' as <-.
        rewrite lookup_insert_ne by lia. rewrite lookup_insert_eq. by eexists.
    + done.
    + done.
    + lia.
    + rewrite lookup_insert_ne by lia. by rewrite lookup_insert_eq.
    + by rewrite lookup_insert_eq.
Qed.

End Proofs.

(* ------------------------------------------------------------------ *)
(** ** Witnesses and counterexamples *)



(** C2: both "TABLET" and "CAPSULE", the later one in the list, occur in the
    formulation "TABLET CAPSULE", yet the pattern look-up uses "TABLET": the
    formulation cache gets the key "TABLET" and not "CAPSULE". *)
Lemma canonical_form_not_last_match :
  let m := Sample2.lisinopril_with None in
  let m' := set_fields m (_name m) (_dose m) (_units m) (Some "TABLET CAPSULE")
              (_instructions m) (_parsed m) in
  let w' := fst (Sample.normalize_dose_s (Sample.world m')) in
  Py.contains "TABLET" "TABLET CAPSULE" = true ∧
  Py.contains "CAPSULE" "TABLET CAPSULE" = true ∧
  canonical_form Sample.forms (Some "TABLET CAPSULE") = inr (Some "TABLET") ∧
  is_Some (formulation_regexp_cache w' !! Some "TABLET") ∧
  formulation_regexp_cache w' !! Some "CAPSULE" = None.
Proof. vm_compute. repeat split. by eexists. Qed.

Lemma canonical_form_first_match_witness :
  canonical_form Sample.forms (Some "CAPSULE, EXTENDED RELEASE") = inr (Some "CAPSULE").
Proof.
  rewrite (canonical_form_first_match Sample.forms).
  - reflexivity.
  - intros k1 k2 H1 H2. simpl in H1, H2.
    destruct H1 as [<-|[<-|[<-|[]]]]; destruct H2 as [<-|[<-|[<-|[]]]];
      vm_compute; congruence.
Defined.


Lemma _normalize_field_not_idempotent_witness :
  _normalize_field Sample.punctuation (_normalize_field Sample.punctuation ". .A") ≠
    _normalize_field Sample.punctuation ". .A".
Proof.
  apply (_normalize_field_not_idempotent Sample.punctuation).
  - simpl. by left.
  - intros q Hq. simpl in Hq.
    destruct Hq as [<-|[<-|[<-|[]]]]; split; reflexivity.
Defined.

Lemma ParsedMedication_init_no_semicolon_raises_witness :
  Sample.init "Aspirin 81 mg tablet" None = inl AttributeError.
Proof.
  unfold Sample.init.
  apply (ParsedMedication_init_no_semicolon_raises Sample.punctuation). reflexivity.
Defined.

Lemma no_context_raises_witness :
  let w := Sample.world (Sample2.lisinopril_with None) in
  CUIs None w = (w, inl MappingContextError) ∧
  compute_generics Sample.abbrevs None w = (w, inl MappingContextError).
Proof.
  intros w.
  destruct (no_context_raises Sample.abbrevs w eq_refl) as (H1 & H2 & _).
  split; [exact H1|exact H2].
Defined.

(** C6: the record has no MappingContext, but its generic formula was
    computed earlier with one passed explicitly; reading [generic_formula]
    then returns the cached formula and raises nothing. *)
Lemma generic_formula_cached_without_context :
  let w0 := Sample2.world_ctx (Sample2.lisinopril_with None) in
  let w1 := fst (compute_generics Sample.abbrevs (Some Sample2.ctx) w0) in
  _context (self w1) = None ∧
  generic_formula Sample.abbrevs w1 = (w1, inr (Some ["LISINOPRIL"])).
Proof. vm_compute. split; reflexivity. Qed.

Lemma compute_generics_fallback_witness :
  let w := Sample2.world_ctx
             (set_name Sample.punctuation (Sample2.lisinopril_with (Some Sample2.ctx)) "foobar") in
  ∃ w', compute_generics Sample.abbrevs None w = (w', inr tt) ∧
        _generic_formula (self w') = Some ["FOOBAR"].
Proof.
  intros w.
  apply (proj1 (compute_generics_fallback Sample.abbrevs) None w Sample2.ctx "FOOBAR");
    vm_compute; reflexivity.
Defined.

(** C7: after [CUIs] has cached the concept set of "LISINOPRIL", the name
    is changed to "FOOBAR", which the name index does not hold; yet
    [compute_generics] uses the cached set and sets the generic formula to
    ["LISINOPRIL"], not to the fallback ["FOOBAR"]. *)
Lemma compute_generics_stale_cache :
  let w0 := Sample2.world_ctx (Sample2.lisinopril_with (Some Sample2.ctx)) in
  let w1 := fst (CUIs None w0) in
  let w2 := set_self w1 (set_name Sample.punctuation (self w1) "foobar") in
  _name (self w2) = Some "FOOBAR" ∧
  concept_names Sample2.ctx !! Py.lower "FOOBAR" = None ∧
  snd (compute_generics Sample.abbrevs None w2) = inr tt ∧
  _generic_formula (self (fst (compute_generics Sample.abbrevs None w2))) = Some ["LISINOPRIL"].
Proof. vm_compute. repeat split. Qed.

Lemma CUIs_copy_isolated_witness :
  let w := Sample2.world_ctx (Sample2.lisinopril_with (Some Sample2.ctx)) in
  ∃ w1 c l, CUIs None w = (w1, inr (Some l)) ∧ _cuis (self w1) = Some c ∧ l ≠ c ∧
            heap w1 !! c = Some ["29046"] ∧ heap w1 !! l = Some ["29046"].
Proof.
  intros w.
  assert (Hwf : wf w).
  { split.
    - intros l xs Hl. simpl in Hl. apply lookup_singleton_Some in Hl as [<- _]. simpl. lia.
    - intros c Hc. vm_compute in Hc. discriminate. }
  assert (Hres : resolves w Sample2.ctx ["29046"]).
  { right. split; [vm_compute; reflexivity|].
    exists "LISINOPRIL", 0%nat. vm_compute. repeat split. }
  destruct (CUIs_copy_isolated Sample.abbrevs w Sample2.ctx ["29046"] Hwf eq_refl Hres)
    as (w1 & c & l & H1 & H2 & H3 & H4 & H5 & _).
  exists w1, c, l. repeat split; assumption.
Defined.

(* ------------------------------------------------------------------ *)
(** ** Further properties of the code *)

Section Extras.

Context (UNDESIRABLE_PUNCTUATION physical_forms : list string)
        (known_number_of_doses known_times_per_day : list (string * Z))
        (abbreviations : gmap string string)
        (MEDICATION_FIELDS : list (field * string))
        (re_findall : string -> string -> list string).

Local Abbreviation ndose :=
  (normalize_dose physical_forms known_number_of_doses known_times_per_day re_findall).

Ltac pym :=
  unfold mbind, PyM_bind, mret, PyM_ret, get, lift, modify_self, raise, read_set,
    write_set, copy_set, set_fcache, set_tcache in *; simpl in *.

(** *** Strings *)

Lemma str_of_chars_of s : Py.str_of (Py.chars_of s) = s.
Proof. apply string_of_list_ascii_of_string. Qed.

Lemma upper_char_idem x : Py.upper_char (Py.upper_char x) = Py.upper_char x.
Proof. destruct x as [[] [] [] [] [] [] [] []]; vm_compute; reflexivity. Qed.

(** X1.  The output of [_normalize_field] is already upper case: [upper()]
    leaves it unchanged. *)
Theorem _normalize_field_upper s :
  Py.upper (_normalize_field UNDESIRABLE_PUNCTUATION s) = _normalize_field UNDESIRABLE_PUNCTUATION s.
Proof.
  unfold Py.upper. rewrite <- (str_of_chars_of (_normalize_field _ s)) at 2. f_equal.
  rewrite <- (map_id (Py.chars_of (_normalize_field _ s))) at 2.
  apply map_ext_in. intros c Hc.
  destruct (in_normalize_field _ _ _ Hc) as [->|(x & _ & <-)].
  - reflexivity.
  - apply upper_char_idem.
Qed.

Definition no_space (l : list ascii) : Prop := Forall (fun c => Py.is_space c = false) l.

Lemma split_ws_aux_words l cur :
  no_space cur →
  Forall (fun p => p ≠ [] ∧ no_space p) (Py.split_ws_aux l cur).
Proof.
  revert cur; induction l as [|x l IH]; intros cur Hcur; simpl.
  - destruct cur as [|y cur]; [done|]. constructor; [|done]. split.
    + intros H. apply (f_equal (@length ascii)) in H. rewrite length_rev in H. simpl in H. lia.
    + unfold no_space. by apply Forall_rev.
  - destruct (Py.is_space x) eqn:Ex.
    + destruct cur as [|y cur]; [apply IH; constructor|].
      constructor; [|apply IH; constructor]. split.
      * intros H. apply (f_equal (@length ascii)) in H. rewrite length_rev in H. simpl in H. lia.
      * unfold no_space. by apply Forall_rev.
    + apply IH. constructor; [done|exact Hcur].
Qed.

Lemma split_ws_aux_app w r cur :
  no_space w → Py.split_ws_aux (w ++ r) cur = Py.split_ws_aux r (rev w ++ cur).
Proof.
  revert cur; induction w as [|x w IH]; intros cur Hw; [done|].
  inversion Hw as [|? ? Hx Hw']; subst. simpl. rewrite Hx, IH by done.
  by rewrite <- app_assoc.
Qed.

Lemma split_join_words ws :
  Forall (fun p => p ≠ [] ∧ no_space p) ws →
  Py.split_ws_aux (Py.chars_of (Py.join " " (map Py.str_of ws))) [] = ws.
Proof.
  induction ws as [|w ws IH]; intros Hws; [done|].
  inversion Hws as [|? ? [Hne Hw] Hws']; subst.
  destruct ws as [|w' ws].
  - simpl. rewrite chars_of_str_of, <- (app_nil_r w), split_ws_aux_app by done.
    rewrite app_nil_r. simpl. destruct (rev w) eqn:E.
    + apply (f_equal (@rev ascii)) in E. rewrite rev_involutive in E. by subst.
    + rewrite <- E, rev_involutive. by rewrite app_nil_r.
  - change (Py.join " " (map Py.str_of (w :: w' :: ws)))
      with (Py.str_of w +:+ " " +:+ Py.join " " (map Py.str_of (w' :: ws))).
    rewrite !chars_of_append, chars_of_str_of, split_ws_aux_app by done.
    rewrite app_nil_r. simpl. destruct (rev w) eqn:E.
    + apply (f_equal (@rev ascii)) in E. rewrite rev_involutive in E. by subst.
    + rewrite <- E, rev_involutive. f_equal. by apply IH.
Qed.

(** X2.  The output of [_normalize_field] is in normal spacing: splitting it
    on whitespace gives non-empty words without whitespace, and joining
    them with single spaces gives the output back. *)
Theorem _normalize_field_spacing s :
  let out := _normalize_field UNDESIRABLE_PUNCTUATION s in
  Py.join " " (Py.split out) = out ∧
  Forall (fun w => w ≠ ""%string ∧ no_space (Py.chars_of w)) (Py.split out).
Proof.
  intros out.
  set (ws := Py.split_ws_aux (Py.chars_of (fold_left (fun f punct => Py.strip_chars punct f)
               UNDESIRABLE_PUNCTUATION (Py.strip (Py.upper s)))) []).
  assert (Hws : Forall (fun p => p ≠ [] ∧ no_space p) ws) by (apply split_ws_aux_words; constructor).
  assert (Hout : out = Py.join " " (map Py.str_of ws)) by reflexivity.
  assert (Hsplit : Py.split out = map Py.str_of ws).
  { unfold Py.split. rewrite Hout, split_join_words by done. reflexivity. }
  rewrite Hsplit. split; [done|].
  apply Forall_map. eapply Forall_impl; [exact Hws|]. intros p [Hp Hn].
  rewrite chars_of_str_of. split; [|done].
  intros H. apply Hp. rewrite <- (chars_of_str_of p), H. reflexivity.
Qed.

Lemma in_lstrip_keep p l c : In c l → p c = false → In c (Py.lstrip_by p l).
Proof.
  induction l as [|x l IH]; simpl; [done|]. intros [<-|H] Hc.
  - rewrite Hc. by left.
  - destruct (p x); [by apply IH|by right].
Qed.

Lemma in_strip_keep p l c : In c l → p c = false → In c (Py.strip_by p l).
Proof.
  intros H Hc. unfold Py.strip_by, Py.rstrip_by.
  apply (proj1 (in_rev _ _)). apply in_lstrip_keep; [|done].
  apply (proj1 (in_rev _ _)). by apply in_lstrip_keep.
Qed.

Lemma in_join_first p ps c :
  In c (Py.chars_of p) → In c (Py.chars_of (Py.join " " (p :: ps))).
Proof.
  destruct ps as [|p' ps]; [done|]. intros H. cbn [Py.join].
  rewrite chars_of_append. apply in_app_iff. by left.
Qed.

Lemma strip_join_words ws :
  Forall (fun p => p ≠ [] ∧ no_space p) ws →
  Py.strip (Py.join " " (map Py.str_of ws)) = ""%string ↔ ws = [].
Proof.
  intros Hws. split; [|by intros ->].
  destruct ws as [|w ws]; [done|]. intros Hs. exfalso.
  inversion Hws as [|? ? [Hne Hw] _]; subst.
  destruct w as [|x w]; [done|]. inversion Hw as [|? ? Hx _]; subst.
  assert (Hin : In x (Py.chars_of (Py.join " " (map Py.str_of ((x :: w) :: ws))))).
  { apply in_join_first. rewrite chars_of_str_of. by left. }
  pose proof (in_strip_keep _ _ _ Hin Hx) as H.
  unfold Py.strip in Hs. apply (f_equal Py.chars_of) in Hs.
  rewrite chars_of_str_of in Hs. rewrite Hs in H. done.
Qed.

(** X3.  [is_empty] on a record whose normalized string is an output of
    [_normalize_field] (as the constructor stores it) is true exactly when
    that string is empty; on a record built without a line, whose
    normalized string is [None], it raises [AttributeError]. *)
Theorem is_empty_normalized :
  (∀ m s, _normalized_string m = Some (_normalize_field UNDESIRABLE_PUNCTUATION s) →
     is_empty m = inr (bool_decide (_normalize_field UNDESIRABLE_PUNCTUATION s = ""%string))) ∧
  (∀ context provenance seq_id,
     ∃ m, ParsedMedication_init UNDESIRABLE_PUNCTUATION None context provenance seq_id = inr m ∧
          is_empty m = inl AttributeError).
Proof.
  split.
  - intros m s Hm. unfold is_empty. rewrite Hm. f_equal. apply bool_decide_ext.
    set (ws := Py.split_ws_aux (Py.chars_of (fold_left (fun f punct => Py.strip_chars punct f)
                 UNDESIRABLE_PUNCTUATION (Py.strip (Py.upper s)))) []).
    assert (Hws : Forall (fun p => p ≠ [] ∧ no_space p) ws)
      by (apply split_ws_aux_words; constructor).
    change (_normalize_field UNDESIRABLE_PUNCTUATION s) with (Py.join " " (map Py.str_of ws)).
    rewrite strip_join_words by done. split; [by intros ->|].
    intros H. apply strip_join_words; [done|]. rewrite H. reflexivity.
  - intros context provenance seq_id. by eexists.
Qed.

Lemma ascii_eqb_false a b : a ≠ b → Py.ascii_eqb a b = false.
Proof. unfold Py.ascii_eqb. by destruct (ascii_dec a b). Qed.

Lemma split_on_aux_nosep sep l cur :
  ¬ In sep l → Py.split_on_aux sep l cur = [rev cur ++ l].
Proof.
  revert cur; induction l as [|x l IH]; intros cur Hl; simpl.
  - by rewrite app_nil_r.
  - rewrite ascii_eqb_false by (intros ->; apply Hl; by left).
    rewrite IH by (intros H; apply Hl; by right). simpl. by rewrite <- app_assoc.
Qed.

Lemma split_on_aux_sep sep a b cur :
  ¬ In sep a → Py.split_on_aux sep (a ++ sep :: b) cur = (rev cur ++ a) :: Py.split_on_aux sep b [].
Proof.
  revert cur; induction a as [|x a IH]; intros cur Ha; simpl.
  - rewrite app_nil_r. unfold Py.ascii_eqb. by destruct (ascii_dec sep sep).
  - rewrite ascii_eqb_false by (intros ->; apply Ha; by left).
    rewrite IH by (intros H; apply Ha; by right). simpl. by rewrite <- app_assoc.
Qed.

(** X4.  [_normalize_drug_name] ignores everything from the first "@" on:
    a name [a] without "@" followed by "@" and any text [b] gives the same
    result as [a]. *)
Theorem _normalize_drug_name_at a b :
  ¬ In "@"%char (Py.chars_of a) →
  _normalize_drug_name abbreviations (a +:+ "@" +:+ b) = _normalize_drug_name abbreviations a.
Proof.
  intros Ha. unfold _normalize_drug_name, Py.split_on.
  rewrite chars_of_append. change (Py.chars_of ("@" +:+ b)) with ("@"%char :: Py.chars_of b).
  rewrite split_on_aux_sep by done. rewrite (split_on_aux_nosep "@"%char (Py.chars_of a) []) by done.
  reflexivity.
Qed.

Lemma replace_fuel_no_occ n o new l :
  Py.contains_l o l = false → Py.replace_fuel n o new l = l.
Proof.
  revert l; induction n as [|n IH]; intros l Hl; [done|].
  destruct l as [|c l]; [done|]. simpl in Hl |- *.
  apply orb_false_iff in Hl as [Hp Hl]. rewrite Hp. f_equal. by apply IH.
Qed.

Lemma replace_form_no_occ k f :
  Py.contains "%FORM%" k = false → Py.replace k "%FORM%" f = k.
Proof.
  intros Hk. unfold Py.replace, Py.contains in *.
  change (Py.chars_of "%FORM%") with ["%"; "F"; "O"; "R"; "M"; "%"]%char in *.
  cbv zeta. rewrite replace_fuel_no_occ by done. apply str_of_chars_of.
Qed.

(** X5.  [build_regular_expressions] keeps the table's values and its
    order, and leaves a key without "%FORM%" as it is; with the formulation
    [None] it raises [TypeError] exactly when the table is not empty. *)
Theorem build_regular_expressions_spec (table : list (string * Z)) :
  (∀ f, ∃ r, build_regular_expressions table (Some f) = inr r ∧
             map snd r = map snd table ∧
             ∀ k v, In (k, v) table → Py.contains "%FORM%" k = false → In (k, v) r) ∧
  (build_regular_expressions table None = inl TypeError ↔ table ≠ []).
Proof.
  split.
  - intros f. eexists. split; [reflexivity|]. split.
    + rewrite map_map. apply map_ext. by intros [k v].
    + intros k v Hin Hk. apply in_map_iff. exists (k, v). by rewrite replace_form_no_occ.
  - destruct table; simpl; split; congruence.
Qed.

(** X6.  [fieldwise_comparison] is symmetric: [a] and [b] agree on the
    same labels as [b] and [a]. *)
Theorem fieldwise_comparison_sym a b label :
  In label (fieldwise_comparison MEDICATION_FIELDS a b) ↔
  In label (fieldwise_comparison MEDICATION_FIELDS b a).
Proof.
  unfold fieldwise_comparison.
  destruct (fieldwise_fold MEDICATION_FIELDS a b [] (NoDup_nil_2)) as [_ H1].
  destruct (fieldwise_fold MEDICATION_FIELDS b a [] (NoDup_nil_2)) as [_ H2].
  rewrite H1, H2. split; intros [H|(f & Hf & He)]; auto; right; eauto.
Qed.

(** *** Methods *)

(** X7.  With a MappingContext, [CUIs] never raises; when no set is cached
    and the record's name (if any) has no entry in the name index, it
    returns [None] and changes nothing. *)
Theorem CUIs_with_context mappings w ctx :
  choose_mappings mappings (self w) = Some ctx →
  (∃ w' r, CUIs mappings w = (w', inr r)) ∧
  (_cuis (self w) = None →
   (∀ n, _name (self w) = Some n → concept_names ctx !! Py.lower n = None) →
   CUIs mappings w = (w, inr None)).
Proof.
  intros Hm. split.
  - unfold CUIs; pym. rewrite Hm. repeat case_match; simpl; eauto; by simplify_eq/=.
  - intros Hc Hn. unfold CUIs; pym. rewrite Hm, Hc.
    destruct (_name (self w)) as [n|] eqn:En; simpl.
    + rewrite (Hn n eq_refl). simpl. by rewrite Hc.
    + by rewrite Hc.
Qed.

Lemma fold_left_app_concat {A} (rs : list (list A)) r : fold_left app rs r = r ++ concat rs.
Proof.
  revert r; induction rs as [|x rs IH]; intros r; simpl; [by rewrite app_nil_r|].
  by rewrite IH, app_assoc.
Qed.

(** X8.  [tradenames] returns [] when the name resolves to no set; when
    [CUIs] returns a set of CUIs, the result lists exactly the second
    concepts of the "tradename_of" relations whose first concept is one of
    them, and an empty set makes [reduce] raise [TypeError]. *)
Theorem tradenames_spec mappings w ctx w1 r :
  choose_mappings mappings (self w) = Some ctx → CUIs (Some ctx) w = (w1, inr r) →
  match r with
  | None => tradenames mappings w = (w1, inr [])
  | Some l =>
      match default [] (heap w1 !! l) with
      | [] => tradenames mappings w = (w1, inl TypeError)
      | ys => ∃ names, tradenames mappings w = (w1, inr names) ∧
                ∀ t, In t names ↔ ∃ y x, In y ys ∧ In x (relations ctx) ∧
                       relation x = "tradename_of"%string ∧ concept1_CUI x = y ∧
                       concept2_CUI x = t
      end
  end.
Proof.
  intros Hm HC. destruct r as [l|].
  2:{ unfold tradenames; pym. rewrite Hm, HC. done. }
  destruct (heap w1 !! l) as [[|y ys]|] eqn:E; simpl.
  - unfold tradenames; pym. rewrite Hm, HC. simpl. by rewrite E.
  - eexists. split.
    + unfold tradenames; pym. rewrite Hm, HC. simpl. rewrite E. simpl. reflexivity.
    + intros t. rewrite fold_left_app_concat.
      change (?a ++ concat ?b) with (concat (a :: b)).
      rewrite <- (map_cons (fun y => map concept2_CUI (filter (fun x =>
        bool_decide (relation x = "tradename_of"%string) && bool_decide (concept1_CUI x = y))
        (relations ctx))) y ys).
      rewrite in_concat. split.
      * intros (names & Hn & Ht). apply in_map_iff in Hn as (y' & <- & Hy').
        apply in_map_iff in Ht as (x & <- & Hx).
        apply list_elem_of_In, list_elem_of_filter in Hx as [Hb Hx].
        apply list_elem_of_In in Hx. apply Is_true_true_1, andb_true_iff in Hb as [H1 H2]. apply bool_decide_eq_true in H1, H2.
        exists y', x. auto.
      * intros (y' & x & Hy' & Hx & H1 & H2 & <-).
        eexists. split; [apply in_map_iff; exists y'; split; [reflexivity|done]|].
        apply in_map_iff. exists x. split; [done|].
        apply list_elem_of_In, list_elem_of_filter. split; [|by apply list_elem_of_In].
        apply Is_true_true_2, andb_true_iff. split; by apply bool_decide_eq_true.
  - unfold tradenames; pym. rewrite Hm, HC. simpl. by rewrite E.
Qed.

(** X9.  When the first concept of the set [CUIs] returns has an
    ingredient list, [compute_generics] sets the generic formula to the
    ingredients' names, each through [_normalize_drug_name]; the concept is
    popped from the returned copy only. *)
Theorem compute_generics_ingredients mappings w ctx w1 l concept rest ingredients :
  choose_mappings mappings (self w) = Some ctx →
  CUIs (Some ctx) w = (w1, inr (Some l)) →
  heap w1 !! l = Some (concept :: rest) →
  formulas ctx !! concept = Some ingredients →
  ∃ w', compute_generics abbreviations mappings w = (w', inr tt) ∧
        _generic_formula (self w') = Some (map (_normalize_drug_name abbreviations) ingredients) ∧
        heap w' = <[l := rest]> (heap w1).
Proof.
  intros Hm HC Hl Hf. unfold compute_generics; pym. rewrite Hm, HC. simpl.
  rewrite Hl. simpl. rewrite Hf. by eexists.
Qed.

(** X10.  When the name resolves to an empty set of CUIs, [concepts.pop()]
    raises [KeyError], and its handler, which logs the never-assigned
    [concept], raises [UnboundLocalError]: [compute_generics] fails and
    sets no generic formula. *)
Theorem compute_generics_empty_set mappings w ctx w1 l :
  choose_mappings mappings (self w) = Some ctx →
  CUIs (Some ctx) w = (w1, inr (Some l)) → heap w1 !! l = Some [] →
  compute_generics abbreviations mappings w = (w1, inl UnboundLocalError) ∧
  _generic_formula (self w1) = _generic_formula (self w).
Proof.
  intros Hm HC Hl. split.
  - unfold compute_generics; pym. rewrite Hm, HC. simpl. by rewrite Hl.
  - pose proof HC as HC'. unfold CUIs in HC'; pym.
    repeat case_match; simplify_eq/=; done.
Qed.

Lemma compute_generics_sets mappings w w' :
  compute_generics abbreviations mappings w = (w', inr tt) →
  is_Some (_generic_formula (self w')).
Proof.
  unfold compute_generics, generics_fallback; pym.
  repeat case_match; intros Hw; simplify_eq/=; by eexists.
Qed.

(** X11.  Reading [generic_formula] memoizes: once a read returns a value,
    it is [Some g], [g] is cached on the record, and the next read returns
    [g] again without changing anything. *)
Theorem generic_formula_memo w w1 v :
  generic_formula abbreviations w = (w1, inr v) →
  ∃ g, v = Some g ∧ _generic_formula (self w1) = Some g ∧
       generic_formula abbreviations w1 = (w1, inr (Some g)).
Proof.
  assert (Hread : ∀ w g, _generic_formula (self w) = Some g →
            generic_formula abbreviations w = (w, inr (Some g))).
  { intros w0 g Hg. unfold generic_formula; pym. by rewrite Hg. }
  unfold generic_formula at 1; pym.
  destruct (_generic_formula (self w)) as [g|] eqn:Eg.
  - intros [= <- <-]. exists g. split; [done|]. split; [done|]. by apply Hread.
  - destruct (_context (self w)); [|congruence].
    destruct (compute_generics abbreviations None w) as [w' [e|[]]] eqn:Ec; simpl; [congruence|].
    intros [= <- <-]. destruct (compute_generics_sets _ _ _ Ec) as [g Hg].
    exists g. rewrite Hg. split; [done|]. split; [done|]. by apply Hread.
Qed.

Lemma normalize_dose_returns w w' :
  ndose w = (w', inr tt) →
  ∃ t q, _norm_dose (self w') =
    match compose_dose (_dose (self w)) (dose_is_unicode (self w)) (_units (self w))
            (units_is_unicode (self w)) t q with
    | inr d => Some d
    | inl _ => _norm_dose (self w)
    end.
Proof.
  unfold normalize_dose; pym.
  destruct (canonical_form physical_forms (_formulation (self w))) as [e|form]; simpl;
    [congruence|].
  destruct (quantity_regexps known_number_of_doses form w) as [w1 [e|r1]] eqn:E1;
    apply quantity_regexps_frame in E1 as (_ & _ & H1 & _); simpl; [congruence|].
  destruct (match_patterns re_findall r1 (_instructions (self w)) None) as [e|n]; simpl;
    [congruence|].
  destruct (times_regexps known_times_per_day form w1) as [w2 [e|r2]] eqn:E2;
    apply times_regexps_frame in E2 as (_ & _ & H2 & _); simpl; [congruence|].
  destruct (match_patterns re_findall r2 (_instructions (self w)) None) as [e|t]; simpl;
    [congruence|].
  rewrite H2, H1. destruct (compose_dose _ _ _ _ _ _) eqn:Ec; simpl; intros [= <-];
    exists (default 1 t), (default 1 n); simpl; rewrite ?H2, ?H1, ?Ec; reflexivity.
Qed.

(** X12.  Reading [normalized_dose] returns the cached normalized dose: a
    read that returns [v] leaves [_norm_dose] equal to [v]; when [v] is
    [Some d], the next read returns [d] without changing anything; [v] is
    [None] only when the composition of [normalize_dose] was rejected
    (its [except ValueError] branch). *)
Theorem normalized_dose_memo w w1 v :
  normalized_dose physical_forms known_number_of_doses known_times_per_day re_findall w =
    (w1, inr v) →
  _norm_dose (self w1) = v ∧
  (∀ d, v = Some d →
     normalized_dose physical_forms known_number_of_doses known_times_per_day re_findall w1 =
       (w1, inr (Some d))) ∧
  (v = None → ∃ t q e, compose_dose (_dose (self w)) (dose_is_unicode (self w))
                         (_units (self w)) (units_is_unicode (self w)) t q = inl e).
Proof.
  assert (Hread : ∀ w d, _norm_dose (self w) = Some d →
            normalized_dose physical_forms known_number_of_doses known_times_per_day re_findall w =
              (w, inr (Some d))).
  { intros w0 d Hd. unfold normalized_dose; pym. by rewrite Hd. }
  unfold normalized_dose at 1; pym.
  destruct (_norm_dose (self w)) as [d|] eqn:Ed.
  - intros [= <- <-]. split; [done|]. split; [|done].
    intros d' [= <-]. by apply Hread.
  - destruct (ndose w) as [w' [e|[]]] eqn:En; simpl; [congruence|].
    intros [= <- <-]. destruct (normalize_dose_returns _ _ En) as (t & q & Hq).
    split; [done|]. split.
    + intros d Hd. by apply Hread.
    + intros Hn. exists t, q. revert Hq. rewrite Ed.
      destruct (compose_dose _ _ _ _ t q); intros Hq; [by eexists|congruence].
Qed.

(** X13.  On a record without a formulation (an unparsed one), with at
    least one known physical form, [known_formulation in None] raises
    [TypeError]: [normalize_dose] and a first read of [normalized_dose]
    fail and change nothing. *)
Theorem normalize_dose_unparsed w :
  _formulation (self w) = None → physical_forms ≠ [] →
  ndose w = (w, inl TypeError) ∧
  (_norm_dose (self w) = None →
   normalized_dose physical_forms known_number_of_doses known_times_per_day re_findall w =
     (w, inl TypeError)).
Proof.
  intros Hf Hp.
  assert (H : ndose w = (w, inl TypeError)).
  { unfold normalize_dose; pym. rewrite Hf. by destruct physical_forms. }
  split; [done|]. intros Hn. unfold normalized_dose; pym. rewrite Hn. by rewrite H.
Qed.

Lemma quantity_regexps_ok form w :
  caches_ok known_number_of_doses known_times_per_day w →
  ∀ w' r, quantity_regexps known_number_of_doses form w = (w', r) →
  r = build_regular_expressions known_number_of_doses form ∧ self w' = self w ∧
  caches_ok known_number_of_doses known_times_per_day w'.
Proof.
  intros [Hf Ht] w' r. unfold quantity_regexps; pym.
  destruct (formulation_regexp_cache w !! form) as [v|] eqn:E.
  - intros [= <- <-]. apply Hf in E. by repeat split.
  - destruct (build_regular_expressions known_number_of_doses form) as [e|v] eqn:Eb; simpl.
    + intros [= <- <-]. by repeat split.
    + intros [= <- <-]. split; [done|]. split; [done|]. split; simpl; [|done].
      intros k v'. destruct (decide (k = form)) as [->|Hne].
      * rewrite lookup_insert_eq. by intros [= <-].
      * rewrite lookup_insert_ne by congruence. apply Hf.
Qed.

Lemma times_regexps_ok form w :
  caches_ok known_number_of_doses known_times_per_day w →
  ∀ w' r, times_regexps known_times_per_day form w = (w', r) →
  r = build_regular_expressions known_times_per_day form ∧ self w' = self w ∧
  caches_ok known_number_of_doses known_times_per_day w'.
Proof.
  intros [Hf Ht] w' r. unfold times_regexps; pym.
  destruct (times_regexp_cache w !! form) as [v|] eqn:E.
  - intros [= <- <-]. apply Ht in E. by repeat split.
  - destruct (build_regular_expressions known_times_per_day form) as [e|v] eqn:Eb; simpl.
    + intros [= <- <-]. by repeat split.
    + intros [= <- <-]. split; [done|]. split; [done|]. split; simpl; [done|].
      intros k v'. destruct (decide (k = form)) as [->|Hne].
      * rewrite lookup_insert_eq. by intros [= <-].
      * rewrite lookup_insert_ne by congruence. apply Ht.
Qed.

(** X14.  The two class-level caches of [normalize_dose] never change its
    outcome: from two states whose caches hold what
    [build_regular_expressions] gives (the empty caches included) and with
    the same record, it raises or returns alike and leaves the same record;
    and it keeps the caches in that state. *)
Theorem normalize_dose_cache_transparent w1 w2 :
  caches_ok known_number_of_doses known_times_per_day w1 →
  caches_ok known_number_of_doses known_times_per_day w2 →
  self w1 = self w2 →
  snd (ndose w1) = snd (ndose w2) ∧ self (fst (ndose w1)) = self (fst (ndose w2)) ∧
  caches_ok known_number_of_doses known_times_per_day (fst (ndose w1)).
Proof.
  intros Hok1 Hok2 Hs. unfold normalize_dose; pym. rewrite <- Hs.
  destruct (canonical_form physical_forms (_formulation (self w1))) as [e|form]; simpl.
  { split; [done|]. split; [exact Hs|exact Hok1]. }
  destruct (quantity_regexps known_number_of_doses form w1) as [v1 r1] eqn:Q1.
  destruct (quantity_regexps known_number_of_doses form w2) as [v2 r2] eqn:Q2.
  destruct (quantity_regexps_ok _ _ Hok1 _ _ Q1) as (-> & Hv1 & Hokv1).
  destruct (quantity_regexps_ok _ _ Hok2 _ _ Q2) as (-> & Hv2 & Hokv2).
  destruct (build_regular_expressions known_number_of_doses form) as [e|regexps]; simpl.
  { split; [done|]. split; [congruence|done]. }
  destruct (match_patterns re_findall regexps (_instructions (self w1)) None) as [e|n]; simpl.
  { split; [done|]. split; [congruence|done]. }
  destruct (times_regexps known_times_per_day form v1) as [u1 t1] eqn:T1.
  destruct (times_regexps known_times_per_day form v2) as [u2 t2] eqn:T2.
  destruct (times_regexps_ok _ _ Hokv1 _ _ T1) as (-> & Hu1 & Hoku1).
  destruct (times_regexps_ok _ _ Hokv2 _ _ T2) as (-> & Hu2 & Hoku2).
  destruct (build_regular_expressions known_times_per_day form) as [e|regexps']; simpl.
  { split; [done|]. split; [congruence|done]. }
  destruct (match_patterns re_findall regexps' (_instructions (self w1)) None) as [e|t]; simpl.
  { split; [done|]. split; [congruence|done]. }
  rewrite Hu1, Hu2, Hv1, Hv2, <- Hs.
  destruct (compose_dose _ _ _ _ _ _); simpl; (split; [done|]); (split; [congruence|exact Hoku1]).
Qed.

(** *** The line grammar and the constructor *)

Lemma span_greedy_all p l a b :
  In (a, b) (Grammar.span_greedy p l) → Forall (fun c => p c = true) a.
Proof.
  revert a b; induction l as [|c l IH]; intros a b; simpl.
  - by intros [[= <- _]|[]].
  - destruct (p c) eqn:Ep.
    + intros H. apply in_app_iff in H as [H|[[= <- _]|[]]]; [|done].
      apply in_map_iff in H as ([a' b'] & [= <- _] & H). constructor; [done|]. by eapply IH.
    + by intros [[= <- _]|[]].
Qed.

Lemma span_greedy1_all p l a b :
  In (a, b) (Grammar.span_greedy1 p l) → a ≠ [] ∧ Forall (fun c => p c = true) a.
Proof.
  unfold Grammar.span_greedy1. destruct l as [|c l]; [done|]. destruct (p c) eqn:Ep; [|done].
  intros H. apply in_map_iff in H as ([a' b'] & [= <- _] & H).
  split; [done|]. constructor; [done|]. by eapply span_greedy_all.
Qed.

Lemma prefix_ci_lower p s m r :
  Grammar.prefix_ci p s = Some (m, r) → map Py.lower_char m = map Py.lower_char p.
Proof.
  revert s m r; induction p as [|x p IH]; intros s m r; simpl.
  - by intros [= <- _].
  - destruct s as [|y s]; [done|].
    destruct (Py.ascii_eqb (Py.lower_char x) (Py.lower_char y)) eqn:E; [|done].
    destruct (Grammar.prefix_ci p s) as [[m' r']|] eqn:E'; simpl; [|done].
    intros [= <- _]. simpl. apply ascii_eqb_true in E. rewrite E. f_equal. by eapply IH.
Qed.

Lemma unit_words_lower : Forall (fun w => Py.lower w = w) Grammar.unit_words.
Proof. repeat constructor. Qed.

Lemma units_matches_word l m r :
  In (m, r) (Grammar.units_matches l) → In (Py.lower (Py.str_of m)) Grammar.unit_words.
Proof.
  unfold Grammar.units_matches. intros H.
  apply in_flat_map in H as (w & Hw & H).
  destruct (Grammar.prefix_ci (Py.chars_of w) l) as [[m' r']|] eqn:E; [|done].
  destruct H as [[= <- <-]|[]].
  apply prefix_ci_lower in E.
  unfold Py.lower in *. rewrite chars_of_str_of, E.
  pose proof (proj1 (List.Forall_forall _ _) unit_words_lower w Hw) as Hl.
  unfold Py.lower in Hl. by rewrite Hl.
Qed.

(** X15.  In every match of [medication_parser], the dose group is a
    non-empty run of digits, "." and "/", and the units group is, up to
    case, one of the words of [m?c?k?g|m?d?l]. *)
Theorem medication_parser_groups s n d u f i :
  In (n, d, u, f, i) (Grammar.medication_parser_findall s) →
  d ≠ ""%string ∧ Forall (fun c => Grammar.dose_char c = true) (Py.chars_of d) ∧
  In (Py.lower u) Grammar.unit_words.
Proof.
  unfold Grammar.medication_parser_findall.
  destruct (Grammar.parser_matches (Py.chars_of s)) as [|g gs] eqn:E; [done|].
  intros [Hg|[]].
  assert (Hin : In (n, d, u, f, i) (Grammar.parser_matches (Py.chars_of s)))
    by (rewrite E, Hg; by left).
  unfold Grammar.parser_matches in Hin.
  do 8 (apply in_flat_map in Hin as ([? ?] & ? & Hin); cbv beta iota in Hin).
  match type of Hin with context [match ?s8 with _ => _ end] =>
    destruct s8 as [|c s9] end; [done|].
  destruct (Py.ascii_eqb c ";"); [|done].
  do 2 (apply in_flat_map in Hin as ([? ?] & ? & Hin); cbv beta iota in Hin).
  destruct Hin as [[= <- <- <- <- <-]|[]].
  repeat match goal with
  | H : In (_, _) (Grammar.span_greedy1 Grammar.dose_char _) |- _ =>
      apply span_greedy1_all in H as [? ?]
  | H : In (_, _) (Grammar.units_matches _) |- _ => apply units_matches_word in H
  end.
  rewrite chars_of_str_of. split; [|by split].
  intros Hd. match goal with H : ?l ≠ [] |- _ => apply H end.
  apply (f_equal Py.chars_of) in Hd. by rewrite chars_of_str_of in Hd.
Qed.

(** X16.  A construction from a line that returns gives a parsed record:
    [_parsed] is true, the five fields are the normalized groups of the
    (single) match of the normalized line, the texts are the stripped line
    and its normalization, the caches are unset, and context, provenance
    and sequence id are the arguments. *)
Theorem ParsedMedication_init_parsed line context provenance seq_id m :
  ParsedMedication_init UNDESIRABLE_PUNCTUATION (Some line) context provenance seq_id = inr m →
  let norm := _normalize_field UNDESIRABLE_PUNCTUATION (Py.strip line) in
  _parsed m = true ∧ _original_string m = Some (Py.strip line) ∧
  _normalized_string m = Some norm ∧
  (∃ n d u f i, Grammar.medication_parser_findall norm = [(n, d, u, f, i)] ∧
     _name m = Some (_normalize_field UNDESIRABLE_PUNCTUATION n) ∧
     _dose m = Some (_normalize_field UNDESIRABLE_PUNCTUATION d) ∧
     _units m = Some (_normalize_field UNDESIRABLE_PUNCTUATION u) ∧
     _formulation m = Some (_normalize_field UNDESIRABLE_PUNCTUATION f) ∧
     _instructions m = Some (_normalize_field UNDESIRABLE_PUNCTUATION i)) ∧
  _generic_formula m = None ∧ _norm_dose m = None ∧ _cuis m = None ∧
  _context m = context ∧ _provenance m = provenance ∧ _seq_id m = seq_id.
Proof.
  unfold ParsedMedication_init. intros H. cbv zeta in H |- *.
  set (norm := _normalize_field UNDESIRABLE_PUNCTUATION (Py.strip line)) in *.
  destruct (Grammar.medication_parser_findall norm) as [|g gs] eqn:E; [done|].
  injection H as <-.
  assert (Hgs : gs = []).
  { unfold Grammar.medication_parser_findall in E.
    destruct (Grammar.parser_matches _); [done|]. by injection E as _ <-. }
  subst gs. unfold from_text. cbv zeta. fold norm. rewrite E.
  destruct g as [[[[n d] u] f] i]. simpl.
  do 3 (split; [done|]). split; [by exists n, d, u, f, i|]. done.
Qed.

(** X17.  [from_text] on an existing record replaces the texts but never
    resets the cached generic formula, normalized dose or CUI set, nor the
    context; when the new line does not match, the five fields and
    [_parsed] keep their old values. *)
Theorem from_text_keeps m line :
  let m' := from_text UNDESIRABLE_PUNCTUATION m line in
  _generic_formula m' = _generic_formula m ∧ _norm_dose m' = _norm_dose m ∧
  _cuis m' = _cuis m ∧ _context m' = _context m ∧
  _original_string m' = Some (Py.strip line) ∧
  (Grammar.medication_parser_findall (_normalize_field UNDESIRABLE_PUNCTUATION (Py.strip line)) = [] →
   _parsed m' = _parsed m ∧ _name m' = _name m ∧ _dose m' = _dose m ∧ _units m' = _units m ∧
   _formulation m' = _formulation m ∧ _instructions m' = _instructions m).
Proof.
  unfold from_text. simpl.
  destruct (Grammar.medication_parser_findall _) as [|[[[[n d] u] f] i] gs]; simpl.
  - by repeat split.
  - by repeat split.
Qed.

End Extras.

(** ** Witnesses of the extra properties *)

Lemma is_empty_normalized_witness :
  is_empty (Sample2.lisinopril_with None) = inr false.
Proof.
  rewrite (proj1 (is_empty_normalized Sample.punctuation) (Sample2.lisinopril_with None)
    (Py.strip "Lisinopril 10 mg tablet; take one tablet by mouth twice daily"))
    by (vm_compute; reflexivity).
  vm_compute. reflexivity.
Defined.

Lemma _normalize_drug_name_at_witness :
  _normalize_drug_name Sample.abbrevs ("Diltiazem HCl" +:+ "@" +:+ "ER 24hr") =
    "DILTIAZEM HYDROCHLORIDE"%string.
Proof.
  rewrite (_normalize_drug_name_at Sample.abbrevs "Diltiazem HCl" "ER 24hr").
  - vm_compute. reflexivity.
  - intros H. simpl in H. repeat (destruct H as [H|H]; [discriminate H|]). exact H.
Defined.

Lemma build_regular_expressions_spec_witness :
  build_regular_expressions Sample.doses None = inl TypeError.
Proof.
  apply (proj2 (build_regular_expressions_spec Sample.doses)). discriminate.
Defined.

Lemma CUIs_with_context_witness :
  CUIs None (Sample2.world_ctx (set_name Sample.punctuation
     (Sample2.lisinopril_with (Some Sample2.ctx)) "foobar")) =
  (Sample2.world_ctx (set_name Sample.punctuation
     (Sample2.lisinopril_with (Some Sample2.ctx)) "foobar"), inr None).
Proof.
  apply (proj2 (CUIs_with_context None (Sample2.world_ctx (set_name Sample.punctuation
     (Sample2.lisinopril_with (Some Sample2.ctx)) "foobar")) Sample2.ctx
     ltac:(vm_compute; reflexivity))).
  - vm_compute. reflexivity.
  - intros n Hn. vm_compute in Hn. injection Hn as <-. vm_compute. reflexivity.
Defined.

Lemma tradenames_spec_witness :
  ∃ names, tradenames None Sample2.w_tn =
             (fst (CUIs (Some Sample2.ctx_tn) Sample2.w_tn), inr names) ∧
           In "PRINIVIL"%string names.
Proof.
  assert (HC : CUIs (Some Sample2.ctx_tn) Sample2.w_tn =
               (fst (CUIs (Some Sample2.ctx_tn) Sample2.w_tn), inr (Some 2%nat)))
    by (vm_compute; reflexivity).
  pose proof (tradenames_spec None Sample2.w_tn Sample2.ctx_tn _ (Some 2%nat)
    ltac:(vm_compute; reflexivity) HC) as H.
  cbv beta iota in H.
  match type of H with
  | match ?x with _ => _ end =>
      replace x with ["29046"%string] in H by (vm_compute; reflexivity)
  end.
  destruct H as (names & Ht & Hin). exists names. split; [exact Ht|].
  apply Hin. exists "29046"%string, (mkRelation "tradename_of" "29046" "PRINIVIL").
  split; [left; reflexivity|]. split; [left; reflexivity|]. auto.
Defined.

Lemma compute_generics_ingredients_witness :
  ∃ w', compute_generics Sample.abbrevs None Sample2.w_lis = (w', inr tt) ∧
        _generic_formula (self w') = Some ["LISINOPRIL"%string].
Proof.
  destruct (compute_generics_ingredients Sample.abbrevs None Sample2.w_lis Sample2.ctx
    (fst (CUIs (Some Sample2.ctx) Sample2.w_lis)) 2%nat "29046" [] ["lisinopril"%string]
    ltac:(vm_compute; reflexivity) ltac:(vm_compute; reflexivity)
    ltac:(vm_compute; reflexivity) ltac:(vm_compute; reflexivity)) as (w' & H1 & H2 & _).
  exists w'. split; [exact H1|]. rewrite H2. vm_compute. reflexivity.
Defined.

Lemma compute_generics_empty_set_witness :
  compute_generics Sample.abbrevs None Sample2.w_empty =
    (fst (CUIs (Some Sample2.ctx) Sample2.w_empty), inl UnboundLocalError).
Proof.
  apply (proj1 (compute_generics_empty_set Sample.abbrevs None Sample2.w_empty Sample2.ctx
    (fst (CUIs (Some Sample2.ctx) Sample2.w_empty)) 2%nat
    ltac:(vm_compute; reflexivity) ltac:(vm_compute; reflexivity)
    ltac:(vm_compute; reflexivity))).
Defined.

Lemma generic_formula_memo_witness :
  generic_formula Sample.abbrevs (fst (generic_formula Sample.abbrevs Sample2.w_lis)) =
    (fst (generic_formula Sample.abbrevs Sample2.w_lis), inr (Some ["LISINOPRIL"%string])).
Proof.
  destruct (generic_formula_memo Sample.abbrevs Sample2.w_lis
    (fst (generic_formula Sample.abbrevs Sample2.w_lis)) (Some ["LISINOPRIL"%string])
    ltac:(vm_compute; reflexivity)) as (g & Hg & _ & H).
  injection Hg as <-. exact H.
Defined.

Lemma normalized_dose_memo_witness :
  (let w := Sample.world (Sample2.lisinopril_with None) in
   let w1 := fst (normalized_dose Sample.forms Sample.doses Sample.times Sample.findall w) in
   normalized_dose Sample.forms Sample.doses Sample.times Sample.findall w1 =
     (w1, inr (Some "10 MG*2*1"%string))) ∧
  (∃ t q e, compose_dose (Some Sample2.half) true (Some "MG"%string) false t q = inl e).
Proof.
  split.
  - intros w w1.
    destruct (normalized_dose_memo Sample.forms Sample.doses Sample.times Sample.findall w w1
      (Some "10 MG*2*1"%string) ltac:(vm_compute; reflexivity)) as (_ & H & _).
    by apply H.
  - destruct (normalized_dose_memo Sample.forms Sample.doses Sample.times Sample.findall
      (Sample.world Sample2.unicode_dose)
      (fst (normalized_dose Sample.forms Sample.doses Sample.times Sample.findall
              (Sample.world Sample2.unicode_dose))) None
      ltac:(vm_compute; reflexivity)) as (_ & _ & H).
    exact (H eq_refl).
Defined.

Lemma normalize_dose_unparsed_witness :
  Sample.normalize_dose_s (Sample.world (fresh None None "" 0 None)) =
    (Sample.world (fresh None None "" 0 None), inl TypeError).
Proof.
  exact (proj1 (normalize_dose_unparsed Sample.forms Sample.doses Sample.times Sample.findall
    (Sample.world (fresh None None "" 0 None)) eq_refl ltac:(discriminate))).
Defined.

Lemma normalize_dose_cache_transparent_witness :
  self (fst (Sample.normalize_dose_s (Sample.world Sample2.as_directed))) =
  self (fst (Sample.normalize_dose_s
    (Sample2.warm (Sample2.lisinopril_with None) Sample2.as_directed))).
Proof.
  assert (H0 : ∀ m, caches_ok Sample.doses Sample.times (Sample.world m)).
  { intros m. split; intros k v Hk; vm_compute in Hk; discriminate. }
  pose proof (proj2 (proj2 (normalize_dose_cache_transparent Sample.forms Sample.doses
    Sample.times Sample.findall (Sample.world (Sample2.lisinopril_with None))
    (Sample.world (Sample2.lisinopril_with None)) (H0 _) (H0 _) eq_refl))) as [Hf Ht].
  assert (Hw : caches_ok Sample.doses Sample.times
                 (Sample2.warm (Sample2.lisinopril_with None) Sample2.as_directed))
    by (split; [exact Hf|exact Ht]).
  exact (proj1 (proj2 (normalize_dose_cache_transparent Sample.forms Sample.doses
    Sample.times Sample.findall (Sample.world Sample2.as_directed)
    (Sample2.warm (Sample2.lisinopril_with None) Sample2.as_directed) (H0 _) Hw eq_refl))).
Defined.

Lemma medication_parser_groups_witness :
  In (Py.lower "MG") Grammar.unit_words ∧ "10"%string ≠ ""%string.
Proof.
  assert (E : Grammar.medication_parser_findall "LISINOPRIL 10 MG TABLET; TAKE ONE TABLET" =
              [("LISINOPRIL", "10", "MG", "TABLET", " TAKE ONE TABLET")]%string)
    by (vm_compute; reflexivity).
  destruct (medication_parser_groups "LISINOPRIL 10 MG TABLET; TAKE ONE TABLET"
    "LISINOPRIL" "10" "MG" "TABLET" " TAKE ONE TABLET" ltac:(rewrite E; left; reflexivity))
    as (Hd & _ & Hu).
  split; [exact Hu|exact Hd].
Defined.

Lemma ParsedMedication_init_parsed_witness :
  ∃ m, Sample.init "Lisinopril 10 mg tablet; take one tablet by mouth twice daily" None = inr m ∧
       _parsed m = true ∧ _cuis m = None.
Proof.
  destruct (Sample.init "Lisinopril 10 mg tablet; take one tablet by mouth twice daily" None)
    as [e|m] eqn:E; [vm_compute in E; discriminate|].
  exists m. split; [reflexivity|].
  destruct (ParsedMedication_init_parsed Sample.punctuation
    "Lisinopril 10 mg tablet; take one tablet by mouth twice daily" None "admission" 0 m E)
    as (Hp & _ & _ & _ & _ & _ & Hc & _).
  split; [exact Hp|exact Hc].
Defined.

Lemma from_text_keeps_witness :
  _name (from_text Sample.punctuation (Sample2.lisinopril_with None) "no dose here") =
    Some "LISINOPRIL"%string.
Proof.
  destruct (from_text_keeps Sample.punctuation (Sample2.lisinopril_with None) "no dose here")
    as (_ & _ & _ & _ & _ & H).
  rewrite (proj1 (proj2 (H ltac:(vm_compute; reflexivity)))).
  vm_compute. reflexivity.
Defined.
